(** * Dozer: the database layer ([dozer/db.py]) and the command gate
      ([dozer/bot.py]), embedded and checked against their specification.

    The Python code is embedded shallowly.  Python values are an inductive
    type, [dict]s that are used as maps are [gmap]s, [dict]s whose insertion
    order is observable (an object's [__dict__], [**kwargs]) are association
    lists, and code that talks to the connection pool runs in a small state
    and exception monad over the store and a log of the statements sent. *)

From Stdlib Require Import ZArith String Ascii List Lia.
From stdpp Require Import base numbers option list strings gmap sorting
  countable pretty.

Local Open Scope Z_scope.
Local Open Scope string_scope.

(** ** Python values *)

Module Py.

(** The values that travel as query arguments and as cache keys: [None],
    integers, strings and tuples of values. *)
#[local] Unset Elimination Schemes.
Inductive pyval : Type :=
  | PNone
  | PInt (z : Z)
  | PStr (s : string)
  | PTuple (vs : list pyval).
#[local] Set Elimination Schemes.

(** Induction that also covers the elements of a tuple. *)
Fixpoint pyval_rect' (P : pyval -> Type) (Q : list pyval -> Type)
    (HN : P PNone) (HI : forall z, P (PInt z)) (HS : forall s, P (PStr s))
    (HT : forall vs, Q vs -> P (PTuple vs))
    (Hnil : Q []) (Hcons : forall v vs, P v -> Q vs -> Q (v :: vs))
    (v : pyval) : P v :=
  match v with
  | PNone => HN
  | PInt z => HI z
  | PStr s => HS s
  | PTuple vs =>
      HT vs ((fix go (l : list pyval) : Q l :=
                match l with
                | [] => Hnil
                | x :: l' =>
                    Hcons x l' (pyval_rect' P Q HN HI HS HT Hnil Hcons x) (go l')
                end) vs)
  end.

Lemma pyval_ind' (P : pyval -> Prop) :
  P PNone -> (forall z, P (PInt z)) -> (forall s, P (PStr s)) ->
  (forall vs, Forall P vs -> P (PTuple vs)) ->
  forall v, P v.
Proof.
  intros HN HI HS HT.
  apply (pyval_rect' P (Forall P)); auto.
Qed.

(** Values are encoded as generic trees, which gives decidable equality and
    countability, hence hashing: every value can key a [gmap]. *)
Fixpoint to_tree (v : pyval) : gen_tree (Z + string) :=
  match v with
  | PNone => GenNode 0 []
  | PInt z => GenLeaf (inl z)
  | PStr s => GenLeaf (inr s)
  | PTuple vs => GenNode 1 (map to_tree vs)
  end.

Fixpoint of_tree (t : gen_tree (Z + string)) : pyval :=
  match t with
  | GenLeaf (inl z) => PInt z
  | GenLeaf (inr s) => PStr s
  | GenNode 0 _ => PNone
  | GenNode _ ts => PTuple (map of_tree ts)
  end.

Lemma of_to_tree v : of_tree (to_tree v) = v.
Proof.
  induction v as [| | |vs IH] using pyval_ind'; simpl; try reflexivity.
  f_equal. induction IH as [|x l Hx _ IHl]; simpl; [reflexivity|].
  now rewrite Hx, IHl.
Qed.

Lemma to_tree_inj v w : to_tree v = to_tree w -> v = w.
Proof.
  intros H. rewrite <- (of_to_tree v), <- (of_to_tree w). now rewrite H.
Qed.

#[global] Instance pyval_eq_dec : EqDecision pyval.
Proof.
  intros v w. destruct (decide (to_tree v = to_tree w)) as [H|H].
  - left. exact (to_tree_inj v w H).
  - right. intros ->. now apply H.
Defined.

#[global] Instance pyval_countable : Countable pyval :=
  inj_countable' to_tree of_tree of_to_tree.

(** Python's [range(a, b)]: the integers from [a] up to, excluding, [b];
    empty when [b <= a]. *)
Definition py_range (a b : Z) : list Z :=
  map (fun k => a + Z.of_nat k) (seq 0 (Z.to_nat (b - a))).

(** [str(n)] of a natural number, as an f-string renders it. *)
Definition str_of_nat (n : nat) : string := pretty n.

(** [sep.join(xs)]. *)
Fixpoint join (sep : string) (xs : list string) : string :=
  match xs with
  | [] => ""
  | [x] => x
  | x :: rest => x +:+ sep +:+ join sep rest
  end.

(** [repr] of a string that holds no quote, backslash or control character
    (a column identifier): the text between single quotes. *)
Definition repr_str (s : string) : string := "'" +:+ s +:+ "'".

(** [repr] of a list of such strings, which is what an f-string prints for
    a list: [['a', 'b']]. *)
Definition repr_str_list (xs : list string) : string :=
  "[" +:+ join ", " (map repr_str xs) +:+ "]".

(** The line feed of a multi-line string literal. *)
Definition nl : string := String (ascii_of_nat 10) EmptyString.

(** ** The order of [sorted] on strings: by code point, lexicographic. *)

Definition str_le (s t : string) : Prop := String.leb s t = true.

#[global] Instance str_le_dec s t : Decision (str_le s t).
Proof. unfold str_le. apply _. Defined.

(** [sorted(xs)] on strings. *)
Definition sorted (xs : list string) : list string := merge_sort str_le xs.

End Py.

(** ** [dozer/db.py] *)

Module Db.
Import Py.

(** *** The store behind the connection pool

    The relational store is outside the program.  It is modelled by the
    little of it the statements of [db.py] touch: named tables holding an
    ordered sequence of rows, and the reserved table
    [versions(table_name PRIMARY KEY, version_num)], absent until it is
    created. *)

(** A row ([asyncpg.Record]): column name to value. *)
Abbreviation row := (gmap string pyval).

Record store : Type := mkStore {
  tables : gmap string (list row);
  versions : option (gmap string Z)
}.

(** An operand of a comparison in a [WHERE] clause: a positional parameter
    [$n], bound to the n-th argument sent with the statement, or a column
    of the row under test. *)
Inductive operand : Type :=
  | Param (n : nat)
  | Column (c : string).

(** A [WHERE] clause: comparisons [a = b] joined by [AND]. *)
Abbreviation where_clause := (list (operand * operand)).

Definition operand_text (o : operand) : string :=
  match o with
  | Param n => "$" +:+ str_of_nat n
  | Column c => c
  end.

Definition cond_text (c : operand * operand) : string :=
  operand_text c.1 +:+ " = " +:+ operand_text c.2.

Definition where_text (w : where_clause) : string :=
  join " AND " (map cond_text w).

(** A parameter is a value, never an identifier: [$n] denotes the n-th
    argument itself. *)
Definition eval_operand (args : list pyval) (r : row) (o : operand)
    : pyval :=
  match o with
  | Param n => default PNone (args !! pred n)
  | Column c => default PNone (r !! c)
  end.

(** SQL equality: a comparison with [NULL] is never true. *)
Definition sql_eq (a b : pyval) : bool :=
  match a, b with
  | PNone, _ | _, PNone => false
  | _, _ => bool_decide (a = b)
  end.

Definition cond_holds (args : list pyval) (r : row)
    (c : operand * operand) : bool :=
  sql_eq (eval_operand args r c.1) (eval_operand args r c.2).

Definition where_holds (args : list pyval) (w : where_clause) (r : row)
    : bool :=
  forallb (cond_holds args r) w.

(** Every [$n] of the clause must have an argument: the server refuses a
    statement that names a parameter it was not sent. *)
Definition operand_bound (args : list pyval) (o : operand) : bool :=
  match o with
  | Param n => bool_decide (1 <= n <= length args)%nat
  | Column _ => true
  end.

Definition where_bound (args : list pyval) (w : where_clause) : bool :=
  forallb (fun c => operand_bound args c.1 && operand_bound args c.2) w.

(** *** The monad of the code: state and exceptions *)

Inductive exn : Type :=
  | NotImplementedError (msg : string)
  | KeyError
  | TypeError
  | AttributeError
  | PostgresError (msg : string).

Inductive outcome (A : Type) : Type :=
  | Ok (a : A)
  | Raise (e : exn).
Arguments Ok {A} a.
Arguments Raise {A} e.

Definition M (S A : Type) : Type := S -> outcome A * S.

Definition ret {S A} (a : A) : M S A := fun s => (Ok a, s).

Definition bind {S A B} (m : M S A) (k : A -> M S B) : M S B :=
  fun s =>
    match m s with
    | (Ok a, s') => k a s'
    | (Raise e, s') => (Raise e, s')
    end.

Definition raise {S A} (e : exn) : M S A := fun s => (Raise e, s).

Notation "x <- m ;; k" := (bind m (fun x => k))
  (at level 100, m at next level, right associativity).
Notation "m ;;; k" := (bind m (fun _ => k))
  (at level 100, right associativity).

(** A [for] loop over a list: the first exception ends it. *)
Fixpoint for_each {S A} (xs : list A) (body : A -> M S unit) : M S unit :=
  match xs with
  | [] => ret tt
  | x :: rest => body x ;;; for_each rest body
  end.

(** What the program sends to the store, in order, and the hooks of the
    table classes the migration runner calls. *)
Inductive event : Type :=
  | EvExecute (stmt : string) (args : list pyval)
  | EvFetch (stmt : string) (args : list pyval)
  | EvInitialCreate (table : string)
  | EvInitialMigrate (table : string)
  | EvStep (table : string) (i : Z).

Record world : Type := mkWorld {
  db : store;
  log : list event
}.

Definition emit (e : event) : M world unit :=
  fun w => (Ok tt, mkWorld (db w) (log w ++ [e])%list).

Definition get_db : M world store := fun w => (Ok (db w), w).

Definition put_db (s : store) : M world unit :=
  fun w => (Ok tt, mkWorld s (log w)).

#[global] Instance exn_eq_dec : EqDecision exn.
Proof. solve_decision. Defined.

#[global] Instance operand_eq_dec : EqDecision operand.
Proof. solve_decision. Defined.

(** *** What the store does with the statements it is sent *)

Definition lift {S A} (o : outcome A) : M S A := fun s => (o, s).

(** [SELECT * FROM t WHERE w] with the arguments [args]. *)
Definition select_rows (t : string) (w : where_clause) (args : list pyval)
    (s : store) : outcome (list row) :=
  if where_bound args w then
    match tables s !! t with
    | Some rows => Ok (List.filter (where_holds args w) rows)
    | None => Raise (PostgresError "relation does not exist")
    end
  else Raise (PostgresError "there is no parameter").

(** [DELETE FROM t WHERE w] with the arguments [args]: the rows on which
    the clause holds go, the others stay in their order. *)
Definition delete_rows (t : string) (w : where_clause) (args : list pyval)
    (s : store) : outcome store :=
  if where_bound args w then
    match tables s !! t with
    | Some rows =>
        Ok (mkStore
              (<[t := List.filter (fun r => negb (where_holds args w r)) rows]>
                 (tables s))
              (versions s))
    | None => Raise (PostgresError "relation does not exist")
    end
  else Raise (PostgresError "there is no parameter").

(** [CREATE TABLE IF NOT EXISTS versions (...)]. *)
Definition create_versions (s : store) : store :=
  match versions s with
  | Some _ => s
  | None => mkStore (tables s) (Some ∅)
  end.

(** [SELECT EXISTS(SELECT 1 FROM information_schema.tables WHERE
    table_name = $1)]. *)
Definition table_exists (name : string) (s : store) : bool :=
  bool_decide (is_Some (tables s !! name))
  || (bool_decide (name = "versions") && bool_decide (is_Some (versions s))).

(** [SELECT version_num FROM versions WHERE table_name = $1], first row or
    [None]. *)
Definition select_version (name : string) (s : store) : outcome (option Z) :=
  match versions s with
  | Some vs => Ok (vs !! name)
  | None => Raise (PostgresError "relation does not exist")
  end.

(** [INSERT INTO versions (table_name, version_num) VALUES ($1,$2)]. *)
Definition insert_version (name : string) (num : Z) (s : store)
    : outcome store :=
  match versions s with
  | Some vs =>
      match vs !! name with
      | Some _ => Raise (PostgresError "duplicate key")
      | None => Ok (mkStore (tables s) (Some (<[name := num]> vs)))
      end
  | None => Raise (PostgresError "relation does not exist")
  end.

(** [conn.fetch(stmt, *args)] of a [SELECT ... WHERE]: [stmt] is the text
    the code built, [t] and [w] what the store reads in it. *)
Definition conn_fetch (stmt : string) (t : string) (w : where_clause)
    (args : list pyval) : M world (list row) :=
  emit (EvFetch stmt args) ;;;
  s <- get_db ;;
  lift (select_rows t w args s).

(** [conn.execute(stmt, *args)] of a [DELETE ... WHERE]. *)
Definition conn_execute_delete (stmt : string) (t : string)
    (w : where_clause) (args : list pyval) : M world unit :=
  emit (EvExecute stmt args) ;;;
  s <- get_db ;;
  s' <- lift (delete_rows t w args s) ;;
  put_db s'.

(** *** Table classes: the subclasses of [DatabaseTable] *)

Record table_class : Type := mkTable {
  __tablename__ : string;
  __uniques__ : list string;
  (** [__versions__]: version number to migration step; declared as a
      [dict] in the source. *)
  __versions__ : gmap Z (M world unit);
  initial_create : M world unit;
  initial_migrate : M world unit
}.

(** [DatabaseTable.initial_create], for a class that does not override it. *)
Definition DatabaseTable_initial_create : M world unit :=
  raise (NotImplementedError "Database schema not implemented!").

(** [DatabaseTable.initial_migrate]: its body is the docstring alone. *)
Definition DatabaseTable_initial_migrate : M world unit := ret tt.

(** An instance of a table class: its class and its [__dict__], in
    insertion order. *)
Record table_object : Type := mkObject {
  class_of : table_class;
  __dict__ : list (string * pyval)
}.

(** *** [db_migrate] *)

Definition versions_ddl : string :=
  "CREATE TABLE IF NOT EXISTS versions (" +:+ nl +:+
  "        table_name text PRIMARY KEY," +:+ nl +:+
  "        version_num int NOT NULL" +:+ nl +:+
  "        )".

Definition exists_query : string :=
  "SELECT EXISTS(" +:+ nl +:+
  "        SELECT 1" +:+ nl +:+
  "        FROM information_schema.tables" +:+ nl +:+
  "        WHERE" +:+ nl +:+
  "        table_name = $1)".

Definition version_query : string :=
  "SELECT version_num FROM versions WHERE table_name = $1".

(** [cls.__versions__[i]()]: a missing key raises; the call of the step is
    recorded before the step runs. *)
Definition call_version (cls : table_class) (i : Z) : M world unit :=
  match __versions__ cls !! i with
  | Some step => emit (EvStep (__tablename__ cls) i) ;;; step
  | None => raise KeyError
  end.

(** The body of the loop over the subclasses. *)
Definition migrate_class (cls : table_class) : M world unit :=
  emit (EvFetch exists_query [PStr (__tablename__ cls)]) ;;;
  s <- get_db ;;
  if table_exists (__tablename__ cls) s then
    emit (EvFetch version_query [PStr (__tablename__ cls)]) ;;;
    s <- get_db ;;
    version <- lift (select_version (__tablename__ cls) s) ;;
    match version with
    | None =>
        emit (EvInitialMigrate (__tablename__ cls)) ;;;
        initial_migrate cls
    | Some version_num =>
        if bool_decide (version_num < Z.of_nat (size (__versions__ cls)))
        then
          for_each
            (py_range (version_num + 1)
                      (Z.of_nat (size (__versions__ cls)) - 2))
            (call_version cls)
        else ret tt
    end
  else
    emit (EvInitialCreate (__tablename__ cls)) ;;;
    initial_create cls.

(** [db_migrate()], over [DatabaseTable.__subclasses__()]. *)
Definition db_migrate (subclasses : list table_class) : M world unit :=
  emit (EvExecute versions_ddl []) ;;;
  s <- get_db ;;
  put_db (create_versions s) ;;;
  for_each subclasses migrate_class.

(** *** [DatabaseTable.update_or_add] *)

(** The first loop: the names and the values of the attributes that are
    not [None], in the order of [__dict__]. *)
Definition collect_item (acc : list string * list pyval)
    (item : string * pyval) : list string * list pyval :=
  match item.2 with
  | PNone => acc
  | value => ((acc.1 ++ [item.1])%list, (acc.2 ++ [value])%list)
  end.

Definition collect (items : list (string * pyval))
    : list string * list pyval :=
  fold_left collect_item items ([], []).

(** [keys.index(key)]: the position of the first occurrence. *)
Definition index (key : string) (keys : list string) : option nat :=
  fst <$> list_find (fun k => k = key) keys.

(** One turn of the second loop. *)
Definition update_step (uniques keys : list string) (updates : string)
    (key : string) : string :=
  if bool_decide (key ∈ uniques) then updates
  else
    let updates := updates +:+ key +:+ " = EXCLUDED." +:+ key in
    if bool_decide (Z.of_nat <$> index key keys
                    = Some (Z.of_nat (length keys) - 1))
    then updates +:+ " ;"
    else updates +:+ ", " +:+ nl.

Definition build_updates (uniques keys : list string) : string :=
  fold_left (update_step uniques keys) keys "".

Definition indent : string := "            ".

(** [','.join(f'${i+1}' for i in range(len(values)))]. *)
Definition placeholders (n : nat) : string :=
  join "," (map (fun i => "$" +:+ str_of_nat (i + 1)) (seq 0 n)).

Definition upsert_statement (tablename : string) (uniques keys : list string)
    (nvalues : nat) (updates : string) : string :=
  nl +:+
  indent +:+ "INSERT INTO " +:+ tablename +:+ " (" +:+ join ", " keys
    +:+ ")" +:+ nl +:+
  indent +:+ "VALUES(" +:+ placeholders nvalues +:+ ") " +:+ nl +:+
  indent +:+ "ON CONFLICT (" +:+ repr_str_list uniques +:+ ") DO UPDATE"
    +:+ nl +:+
  indent +:+ "SET " +:+ updates +:+ nl +:+
  indent.

(** The statement and the arguments [update_or_add] hands to
    [conn.execute]. *)
Definition update_or_add_call (self : table_object)
    : string * list pyval :=
  let '(keys, values) := collect (__dict__ self) in
  let updates := build_updates (__uniques__ (class_of self)) keys in
  (upsert_statement (__tablename__ (class_of self))
     (__uniques__ (class_of self)) keys (length values) updates,
   values).

(** [conn.execute] of that statement.  Whatever the record, the conflict
    target the code writes is the text of a Python list, [[...]], where SQL
    wants column names: the store refuses the statement as a syntax error,
    and no row is inserted or updated. *)
Definition conn_execute_upsert (stmt : string) (args : list pyval)
    : M world unit :=
  emit (EvExecute stmt args) ;;;
  raise (PostgresError "syntax error").

Definition update_or_add (self : table_object) : M world unit :=
  let '(statement, values) := update_or_add_call self in
  conn_execute_upsert statement values.

(** *** The queries of [DatabaseTable] *)

Definition get_by_attribute (cls : table_class) (obj_id : pyval)
    (column_name : pyval) : M world (list row) :=
  conn_fetch ("SELECT * FROM " +:+ __tablename__ cls +:+ " WHERE $1 = $2")
    (__tablename__ cls) [(Param 1, Param 2)] [column_name; obj_id].

(** What a Python function hands back: [get_by_id] ends without a
    [return], so it hands back [None]. *)
Definition get_by_id (cls : table_class) (obj_id : pyval)
    : M world (option (list row)) :=
  get_by_attribute cls obj_id (PStr "id") ;;;
  ret None.

Definition get_by_guild (cls : table_class) (guild_id : pyval)
    (guild_column_name : pyval) : M world (option (list row)) :=
  stmt <- get_by_attribute cls guild_id guild_column_name ;;
  ret (Some stmt).

Definition get_by_channel (cls : table_class) (channel_id : pyval)
    (channel_column_name : pyval) : M world (option (list row)) :=
  stmt <- get_by_attribute cls channel_id channel_column_name ;;
  ret (Some stmt).

Definition get_by_user (cls : table_class) (user_id : pyval)
    (user_column_name : pyval) : M world (option (list row)) :=
  stmt <- get_by_attribute cls user_id user_column_name ;;
  ret (Some stmt).

Definition get_by_role (cls : table_class) (role_id : pyval)
    (role_column_name : pyval) : M world (option (list row)) :=
  stmt <- get_by_attribute cls role_id role_column_name ;;
  ret (Some stmt).

(** The default column names of the four wrappers. *)
Definition guild_column_default : pyval := PStr "guild_id".
Definition channel_column_default : pyval := PStr "channel_id".
Definition user_column_default : pyval := PStr "user_id".
Definition role_column_default : pyval := PStr "role_id".

Definition get_all (cls : table_class) : M world (list row) :=
  conn_fetch ("SELECT * FROM " +:+ __tablename__ cls +:+ ";")
    (__tablename__ cls) [] [].

(** *** [DatabaseTable.delete] *)

(** The text: the fixed first comparison, then one [AND] per further
    tuple, then the semicolon.  [n] is [len(data_tuple_list)]. *)
Definition delete_and (statement : string) (i : nat) : string :=
  statement +:+ " AND $" +:+ str_of_nat (2 * i + 1) +:+ " = $"
    +:+ str_of_nat (2 * i + 2).

Definition delete_statement (tablename : string) (n : nat) : string :=
  let statement :=
    nl +:+ indent +:+ "DELETE FROM  " +:+ tablename +:+ nl +:+
    indent +:+ "WHERE $1 = $2" in
  let statement :=
    if bool_decide (1 < n)%nat
    then fold_left delete_and (seq 1 (n - 1)) statement
    else statement in
  statement +:+ ";".

(** What the store reads in that text. *)
Definition delete_where (n : nat) : where_clause :=
  (Param 1, Param 2)
    :: map (fun i => (Param (2 * i + 1), Param (2 * i + 2)))
           (seq 1 (n - 1)).

(** [[i for sub in data_tuple_list for i in sub]]. *)
Definition delete_params (data_tuple_list : list (pyval * pyval))
    : list pyval :=
  flat_map (fun sub => [sub.1; sub.2]) data_tuple_list.

Definition delete (cls : table_class)
    (data_tuple_list : list (pyval * pyval)) : M world unit :=
  conn_execute_delete
    (delete_statement (__tablename__ cls) (length data_tuple_list))
    (__tablename__ cls)
    (delete_where (length data_tuple_list))
    (delete_params data_tuple_list).

(** *** [ConfigCache] *)

(** What a cache slot holds and what the queries hand back: [None], one
    record, or a list of records. *)
Inductive pyobj : Type :=
  | ONone
  | ORecord (r : row)
  | ORows (rs : list row).

(** The state a method of a [ConfigCache] runs in: [self.cache] and the
    world behind the pool.  [self.table] never changes and is passed
    along. *)
Abbreviation cache_state := (gmap pyval pyobj * world)%type.

Definition in_world {A} (m : M world A) : M cache_state A :=
  fun cs =>
    match m cs.2 with
    | (o, w') => (o, (cs.1, w'))
    end.

Definition get_cache : M cache_state (gmap pyval pyobj) :=
  fun cs => (Ok cs.1, cs).

(** [self.cache[k] = v]. *)
Definition setitem (k : pyval) (v : pyobj) : M cache_state unit :=
  fun cs => (Ok tt, (<[k := v]> cs.1, cs.2)).

(** [del self.cache[k]]. *)
Definition delitem (k : pyval) : M cache_state unit :=
  fun cs => (Ok tt, (base.delete k cs.1, cs.2)).

(** [self.cache[k]]. *)
Definition getitem (k : pyval) : M cache_state pyobj :=
  c <- get_cache ;;
  match c !! k with
  | Some v => ret v
  | None => raise KeyError
  end.

(** [dic[k]] on a [dict] kept in insertion order. *)
Fixpoint dict_get (dic : list (string * pyval)) (k : string)
    : option pyval :=
  match dic with
  | [] => None
  | (k', v) :: rest => if bool_decide (k' = k) then Some v else dict_get rest k
  end.

(** [_hash_dict(dic)]: [tuple((k, dic[k]) for k in sorted(dic))].  [k]
    ranges over the keys of [dic], so [dic[k]] is always there. *)
Definition _hash_dict (dic : list (string * pyval)) : pyval :=
  PTuple (omap (fun k => (fun v => PTuple [PStr k; v]) <$> dict_get dic k)
               (sorted dic.*1)).

Definition query_one (table : table_class) (args : list pyval)
    (obj_id column_name : pyval) : M cache_state pyobj :=
  let query_hash := PTuple args in
  c <- get_cache ;;
  match c !! query_hash with
  | None =>
      rows <- in_world (get_by_attribute table obj_id column_name) ;;
      setitem query_hash (ORows rows) ;;;
      match rows with
      | [] => setitem query_hash ONone
      | r :: _ => setitem query_hash (ORecord r)
      end ;;;
      getitem query_hash
  | Some _ => ret ONone
  end.

Definition query_all (table : table_class) (args : list pyval)
    : M cache_state pyobj :=
  let query_hash := PTuple args in
  c <- get_cache ;;
  match c !! query_hash with
  | None =>
      rows <- in_world (get_all table) ;;
      setitem query_hash (ORows rows)
  | Some _ => ret tt
  end ;;;
  getitem query_hash.

Definition invalidate_entry (kwargs : list (string * pyval))
    : M cache_state unit :=
  let query_hash := _hash_dict kwargs in
  c <- get_cache ;;
  match c !! query_hash with
  | Some _ => delitem query_hash
  | None => ret tt
  end.

(** [set_initial_version] is a class method of [ConfigCache]; it reads
    [cls.__tablename__], which [ConfigCache] does not define. *)
Definition set_initial_version (cls_tablename : option string)
    : M world unit :=
  match cls_tablename with
  | None => raise AttributeError
  | Some name =>
      emit (EvExecute
              "INSERT INTO versions (table_name, version_num) VALUES ($1,$2)"
              [PStr name; PInt 0]) ;;;
      s <- get_db ;;
      s' <- lift (insert_version name 0 s) ;;
      put_db s'
  end.


(** *** [DatabaseTable.__repr__] *)

(** [sep.join(xs)] over arbitrary values: [str.join] raises [TypeError] as
    soon as one element is not a string. *)
Fixpoint strings_of (xs : list pyval) : option (list string) :=
  match xs with
  | [] => Some []
  | PStr s :: rest => (fun l => s :: l) <$> strings_of rest
  | _ :: _ => None
  end.

Definition str_join (sep : string) (xs : list pyval) : outcome string :=
  match strings_of xs with
  | Some l => Ok (join sep l)
  | None => Raise TypeError
  end.

(** [self.__dict__.items()]: the attributes as (name, value) tuples. *)
Definition items (d : list (string * pyval)) : list pyval :=
  map (fun kv => PTuple [PStr kv.1; kv.2]) d.

Section Repr.

(** How an f-string prints a value belongs to Python and stays abstract. *)
Variable format_value : pyval -> string.

(** One turn of the loop, on [values] and [first]: [first] is only ever
    assigned inside the branch where it is already false. *)
Definition repr_step (acc : string * bool) (item : string * pyval)
    : string * bool :=
  let '(values, first) := acc in
  let '(values, first) :=
    if negb first then (values +:+ ", ", false) else (values, first) in
  (values +:+ item.1 +:+ ": " +:+ format_value item.2, first).

(** [__repr__]: the loop builds [values], which the [return] does not
    use; the [return] joins the items of [__dict__] themselves. *)
Definition __repr__ (self : table_object) : outcome string :=
  let '(values, first) := fold_left repr_step (__dict__ self) ("", true) in
  match str_join ", " (items (__dict__ self)) with
  | Ok joined =>
      Ok (__tablename__ (class_of self) +:+ ": < " +:+ joined +:+ ">")
  | Raise e => Raise e
  end.

End Repr.

(** *** Definitions the properties are stated with, and sample data *)

(** Sample data: the table of [cogs/info.py], [afk_status(user_id, reason)]
    with [user_id] unique, and two of its rows. *)
Definition afk_status : table_class :=
  mkTable "afk_status" ["user_id"] ∅
    DatabaseTable_initial_create DatabaseTable_initial_migrate.

Definition row_7_meeting : row :=
  <["user_id" := PInt 7]> (<["reason" := PStr "meeting"]> ∅).

Definition row_8_lunch : row :=
  <["user_id" := PInt 8]> (<["reason" := PStr "lunch"]> ∅).

Definition afk_store : store :=
  mkStore (<["afk_status" := [row_7_meeting; row_8_lunch]]> ∅) (Some ∅).

(** What a slot gets after a miss in [query_one]. *)
Definition single (rows : list row) : pyobj :=
  match rows with
  | [] => ONone
  | r :: _ => ORecord r
  end.

(** The rows of a table whose column [column] holds [value]. *)
Definition rows_with (column : string) (value : pyval) (rows : list row)
    : list row :=
  List.filter (fun r => bool_decide (r !! column = Some value)) rows.

(** The result of a call with a function applied to what it handed back. *)
Definition outcome_map {A B} (f : A -> B) (o : outcome A) : outcome B :=
  match o with
  | Ok a => Ok (f a)
  | Raise e => Raise e
  end.

(** What one key adds to [updates]: nothing for a unique column, else its
    assignment and the text after it. *)
Definition update_piece (uniques keys : list string) (key : string)
    : string :=
  if bool_decide (key ∈ uniques) then ""
  else
    key +:+ " = EXCLUDED." +:+ key
      +:+ (if bool_decide (Z.of_nat <$> index key keys
                           = Some (Z.of_nat (length keys) - 1))
           then " ;" else ", " +:+ nl).

Definition flatten (l : list string) : string :=
  fold_right String.append "" l.

(** An assignment followed by a comma and a line feed. *)
Definition assignment_comma (key : string) : string :=
  key +:+ " = EXCLUDED." +:+ key +:+ ", " +:+ nl.

(** What a key adds when the comma follows it. *)
Definition piece_comma (uniques : list string) (key : string) : string :=
  if bool_decide (key ∈ uniques) then "" else assignment_comma key.

(** A subclass of [DatabaseTable] for [afk_status] whose [initial_create]
    creates the empty table and does nothing else. *)
Definition create_table (name : string) : M world unit :=
  s <- get_db ;;
  put_db (mkStore (<[name := []]> (tables s)) (versions s)).

Definition afk_status_created : table_class :=
  mkTable "afk_status" ["user_id"] ∅
    (create_table "afk_status") DatabaseTable_initial_migrate.

(** The same table with five migration steps, numbered 1 to 5. *)
Definition five_steps : gmap Z (M world unit) :=
  list_to_map [(1, ret tt); (2, ret tt); (3, ret tt); (4, ret tt);
               (5, ret tt)].

Definition afk_status_v5 : table_class :=
  mkTable "afk_status" ["user_id"] five_steps
    (create_table "afk_status") DatabaseTable_initial_migrate.

(** A store with nothing in it, and one where [afk_status] is at
    version 2. *)
Definition fresh_store : store := mkStore ∅ None.

Definition afk_store_v2 : store :=
  mkStore (<["afk_status" := [row_7_meeting; row_8_lunch]]> ∅)
          (Some {["afk_status" := 2]}).

(** The calls of migration steps among the events of a log. *)
Definition is_step (e : event) : bool :=
  match e with
  | EvStep _ _ => true
  | _ => false
  end.

Definition steps_of (l : list event) : list event := List.filter is_step l.

(** A store where [afk_status] is at version 0. *)
Definition afk_store_v0 : store :=
  mkStore (<["afk_status" := [row_7_meeting; row_8_lunch]]> ∅)
          (Some {["afk_status" := 0]}).

End Db.

(** ** [dozer/bot.py]: the global check and the error handler *)

Module Bot.

(** The exception classes the handler tells apart.  [InvalidContext] is
    declared in [bot.py]; the others are the command framework's. *)
Inductive errclass : Type :=
  | CommandError
  | CheckFailure
  | UserInputError
  | CommandNotFound
  | CommandOnCooldown
  | CommandInvokeError
  | DisabledCommand
  | NoPrivateMessage
  | NotOwner
  | MissingPermissions
  | BotMissingPermissions
  | MissingRequiredArgument
  | BadArgument
  | TooManyArguments
  | InvalidContext.

#[global] Instance errclass_eq_dec : EqDecision errclass.
Proof. solve_decision. Defined.

(** The class each one derives from ([CommandError] derives from classes
    the handler never names). *)
Definition base_class (c : errclass) : option errclass :=
  match c with
  | CommandError => None
  | CheckFailure | UserInputError | CommandNotFound | CommandOnCooldown
  | CommandInvokeError | DisabledCommand => Some CommandError
  | NoPrivateMessage | NotOwner | MissingPermissions
  | BotMissingPermissions | InvalidContext => Some CheckFailure
  | MissingRequiredArgument | BadArgument | TooManyArguments =>
      Some UserInputError
  end.

(** A class and the classes above it, nearest first. *)
Fixpoint lineage (depth : nat) (c : errclass) : list errclass :=
  c :: match depth, base_class c with
       | S d, Some b => lineage d b
       | _, _ => []
       end.

(** [isinstance(err, k)]; no class here is more than two steps below
    [CommandError]. *)
Definition isinstance (c k : errclass) : bool :=
  bool_decide (k ∈ lineage 2 c).

Definition isinstance_any (c : errclass) (ks : list errclass) : bool :=
  existsb (isinstance c) ks.

Record error : Type := mkError {
  err_class : errclass;
  err_args : list string;
  missing_perms : list string
}.

Record context : Type := mkContext {
  author_bot : bool;
  author_mention : string;
  (** The command the message names, when there is one. *)
  command : option string;
  (** The word after the prefix, when the message starts with the prefix. *)
  invoked_with : option string
}.

(** What [ctx.send] is called with, by branch of the handler; the texts
    themselves are formatted by helpers outside this file. *)
Inductive reply : Type :=
  | ReplyNoPrivateMessage (mention : string)
  | ReplyUserInput (mention : string) (err : error)
  | ReplyNotOwner (mention : string) (arg0 : string)
  | ReplyMissingPermissions (mention : string) (perms : list string)
  | ReplyBotMissingPermissions (mention : string) (perms : list string)
  | ReplyOnCooldown (mention : string)
  | ReplyTraceback (err : error).

(** [on_command_error(ctx, err)]: the messages it sends.  In the branch of
    [NotOwner] the text is built from [err.args[0]] before anything is
    sent: for an error without arguments that raises [IndexError], the
    handler ends there and nothing is sent.  What the handler writes to the
    log after the last branch has sent its message is not part of this. *)
Definition on_command_error (ctx : context) (err : error) : list reply :=
  if isinstance (err_class err) NoPrivateMessage then
    [ReplyNoPrivateMessage (author_mention ctx)]
  else if isinstance (err_class err) UserInputError then
    [ReplyUserInput (author_mention ctx) err]
  else if isinstance (err_class err) NotOwner then
    match err_args err with
    | arg0 :: _ => [ReplyNotOwner (author_mention ctx) arg0]
    | [] => []
    end
  else if isinstance (err_class err) MissingPermissions then
    [ReplyMissingPermissions (author_mention ctx) (missing_perms err)]
  else if isinstance (err_class err) BotMissingPermissions then
    [ReplyBotMissingPermissions (author_mention ctx) (missing_perms err)]
  else if isinstance (err_class err) CommandOnCooldown then
    [ReplyOnCooldown (author_mention ctx)]
  else if isinstance_any (err_class err) [CommandNotFound; InvalidContext]
  then []
  else [ReplyTraceback err].

(** What a message leads to: a command body run, or a message sent. *)
Inductive action : Type :=
  | Ran (cmd : string)
  | Sent (r : reply).

Section GlobalCheck.

(** The per-user cooldown object belongs to the framework: its state and
    [update_rate_limit], which hands back the time to wait or [None], stay
    abstract, as does the truth value of that time. *)
Variable cooldown : Type.
Variable retry : Type.
Variable update_rate_limit : cooldown -> option retry * cooldown.
Variable truthy : retry -> bool.

(** [global_checks(ctx)]: [inr] is the exception raised. *)
Definition global_checks (ctx : context) (cd : cooldown)
    : (bool + error) * cooldown :=
  if author_bot ctx then
    (inr (mkError InvalidContext ["Bots cannot run commands!"] []), cd)
  else
    let '(retry_after, cd') := update_rate_limit cd in
    if from_option truthy false retry_after then
      (inr (mkError InvalidContext ["Global rate-limit exceeded!"] []), cd')
    else (inl true, cd').

(** What comes after the global check belongs to the framework and to the
    command: its own checks ([guild_only] and the like), its cooldown, the
    conversion of its arguments and its body.  All of that stays abstract:
    it comes to the actions done and, when it fails, the error raised. *)
Variable proceed : string -> context -> list action * option error.

(** The framework's dispatch of one message, as far as it reaches this
    code: an unknown command name is reported as [CommandNotFound]; a
    known command is gone on with only when the global check hands back a
    true value; the error a check, a cooldown, a conversion or the body
    raises goes to [on_command_error]. *)
Definition invoke (ctx : context) (cd : cooldown) : list action * cooldown :=
  match command ctx with
  | Some cmd =>
      match global_checks ctx cd with
      | (inl true, cd') =>
          let '(done, failure) := proceed cmd ctx in
          ((done ++ match failure with
                    | Some err => Sent <$> on_command_error ctx err
                    | None => []
                    end)%list,
           cd')
      | (inl false, cd') =>
          (Sent <$> on_command_error ctx (mkError CheckFailure [] []), cd')
      | (inr err, cd') => (Sent <$> on_command_error ctx err, cd')
      end
  | None =>
      match invoked_with ctx with
      | Some _ =>
          (Sent <$> on_command_error ctx (mkError CommandNotFound [] []), cd)
      | None => ([], cd)
      end
  end.

End GlobalCheck.

(** *** [Dozer.format_error] *)

Definition is_upper (c : ascii) : bool :=
  (65 <=? nat_of_ascii c)%nat && (nat_of_ascii c <=? 90)%nat.

Definition is_lower (c : ascii) : bool :=
  (97 <=? nat_of_ascii c)%nat && (nat_of_ascii c <=? 122)%nat.

(** The longest run of lower-case letters a string starts with. *)
Fixpoint lower_prefix (s : string) : string :=
  match s with
  | String c rest => if is_lower c then String c (lower_prefix rest) else ""
  | EmptyString => ""
  end.

(** [re.compile('[A-Z][a-z]+').findall(s)]: the matches from left to
    right, each as long as it can be, none overlapping.  A match starts at
    an upper-case letter that a lower-case letter follows and takes the
    whole lower-case run; the search goes on behind the run, which is the
    same as going on with the next character, since no match starts inside
    a lower-case run. *)
Fixpoint findall_words (s : string) : list string :=
  match s with
  | EmptyString => []
  | String c rest =>
      match lower_prefix rest with
      | EmptyString => findall_words rest
      | String _ _ as run =>
          if is_upper c then String c run :: findall_words rest
          else findall_words rest
      end
  end.

(** [str.lower] on the letters the matches are made of. *)
Definition lower_char (c : ascii) : ascii :=
  if is_upper c then ascii_of_nat (nat_of_ascii c + 32) else c.

Fixpoint str_lower (s : string) : string :=
  match s with
  | String c rest => String (lower_char c) (str_lower rest)
  | EmptyString => ""
  end.

Section FormatError.

(** [utils.clean] is not part of this file and stays abstract. *)
Variable clean : context -> string -> string.

(** [format_error(ctx, err)], on the name of the class of [err] and its
    [args]. *)
Definition format_error (ctx : context) (type_name : string)
    (args : list string) : string :=
  let type_words := findall_words type_name in
  let type_msg := Py.join " " (map str_lower type_words) in
  match args with
  | arg0 :: _ => type_msg +:+ ": " +:+ clean ctx arg0
  | [] => type_msg
  end.

End FormatError.

(** Words as the pattern matches them: an upper-case letter and then
    one or more lower-case letters. *)
Fixpoint all_lower (s : string) : bool :=
  match s with
  | String c rest => is_lower c && all_lower rest
  | EmptyString => true
  end.

Definition capitalized (w : string) : bool :=
  match w with
  | String u (String _ _ as run) => is_upper u && all_lower run
  | _ => false
  end.

Definition concat_words (ws : list string) : string :=
  fold_right String.append "" ws.

End Bot.

(** * Properties *)

(** ** The order behind [sorted] *)

Module PyFacts.
Import Py.

Lemma compare_le_trans (s t u : string) :
  String.compare s t <> Gt -> String.compare t u <> Gt ->
  String.compare s u <> Gt.
Proof.
  revert t u.
  induction s as [|a s IH]; intros [|b t] [|c u]; simpl; try congruence.
  unfold Ascii.compare.
  destruct (N.compare_spec (N_of_ascii a) (N_of_ascii b)) as [Hab|Hab|Hab];
    try congruence;
    destruct (N.compare_spec (N_of_ascii b) (N_of_ascii c)) as [Hbc|Hbc|Hbc];
    try congruence; intros H1 H2.
  - rewrite Hab, Hbc, N.compare_refl. now apply (IH t u).
  - rewrite Hab. apply N.compare_lt_iff in Hbc. now rewrite Hbc.
  - rewrite <- Hbc. apply N.compare_lt_iff in Hab. now rewrite Hab.
  - assert (Hac : (N_of_ascii a < N_of_ascii c)%N) by lia.
    apply N.compare_lt_iff in Hac. now rewrite Hac.
Qed.

Lemma str_le_compare (s t : string) : str_le s t <-> String.compare s t <> Gt.
Proof.
  unfold str_le, String.leb. destruct (String.compare s t); split; congruence.
Qed.

#[global] Instance str_le_trans : Transitive str_le.
Proof.
  intros s t u. rewrite !str_le_compare. apply compare_le_trans.
Qed.

#[global] Instance str_le_total : Total str_le.
Proof. intros s t. apply String.leb_total. Qed.

#[global] Instance str_le_antisym : AntiSymm (=) str_le.
Proof. intros s t. apply String.leb_antisym. Qed.

Lemma sorted_Sorted (xs : list string) : Sorted str_le (sorted xs).
Proof. apply Sorted_merge_sort, _. Qed.

Lemma sorted_Permutation (xs : list string) : sorted xs ≡ₚ xs.
Proof. apply merge_sort_Permutation. Qed.

(** [sorted] depends on the elements alone, not on the order they came in. *)
Lemma sorted_perm (xs ys : list string) : xs ≡ₚ ys -> sorted xs = sorted ys.
Proof.
  intros H. apply (Sorted_unique str_le); try apply sorted_Sorted.
  now rewrite !sorted_Permutation.
Qed.

Lemma py_range_elem (a b i : Z) : i ∈ py_range a b <-> a <= i < b.
Proof.
  unfold py_range. rewrite list_elem_of_fmap. split.
  - intros (k & -> & Hk). apply elem_of_seq in Hk. lia.
  - intros H. exists (Z.to_nat (i - a)). split; [lia|].
    apply elem_of_seq. lia.
Qed.

Lemma py_range_empty (a b : Z) : b <= a -> py_range a b = [].
Proof.
  intros H. unfold py_range. now replace (Z.to_nat (b - a)) with 0%nat by lia.
Qed.

End PyFacts.

(** ** [dozer/db.py] *)

Module DbFacts.
Import Py PyFacts Db.

(** *** [_hash_dict] and the order of the keyword arguments *)

Lemma dict_get_elem (d : list (string * pyval)) (k : string) :
  k ∈ d.*1 <-> is_Some (dict_get d k).
Proof.
  induction d as [|[k' v] d IH]; simpl.
  - split; [intros H; inversion H | intros [? H]; discriminate].
  - rewrite elem_of_cons, IH. case_bool_decide; subst.
    + split; eauto.
    + split; [intros [->|H']; [congruence|assumption] | auto].
Qed.

(** Two [dict]s with the same content have the same keys, up to order. *)
Lemma same_dict_keys (d1 d2 : list (string * pyval)) :
  NoDup d1.*1 -> NoDup d2.*1 ->
  (forall k, dict_get d1 k = dict_get d2 k) ->
  d1.*1 ≡ₚ d2.*1.
Proof.
  intros N1 N2 H. apply NoDup_Permutation; [assumption..|].
  intros k. now rewrite !dict_get_elem, H.
Qed.

Lemma omap_cons {A B} (f : A -> option B) (x : A) (l : list A) :
  omap f (x :: l)
  = match f x with
    | Some y => y :: omap f l
    | None => omap f l
    end.
Proof. reflexivity. Qed.

Lemma omap_pointwise {A B} (f g : A -> option B) (l : list A) :
  (forall x, f x = g x) -> omap f l = omap g l.
Proof.
  intros H. induction l as [|x l IH]; [reflexivity|].
  rewrite !omap_cons, H. now rewrite IH.
Qed.

Lemma hash_dict_same_dict (d1 d2 : list (string * pyval)) :
  NoDup d1.*1 -> NoDup d2.*1 ->
  (forall k, dict_get d1 k = dict_get d2 k) ->
  _hash_dict d1 = _hash_dict d2.
Proof.
  intros N1 N2 H. unfold _hash_dict.
  rewrite (sorted_perm _ _ (same_dict_keys d1 d2 N1 N2 H)).
  f_equal. apply omap_pointwise. intros k. now rewrite H.
Qed.

(** The key [_hash_dict] builds lists every entry of the [dict] once, by
    increasing name. *)
Lemma hash_dict_items (d : list (string * pyval)) :
  NoDup d.*1 ->
  exists ks, _hash_dict d
             = PTuple ((fun k => PTuple [PStr k; default PNone (dict_get d k)])
                         <$> ks)
             /\ Sorted str_le ks /\ ks ≡ₚ d.*1.
Proof.
  intros _. exists (sorted d.*1). split; [|split].
  - unfold _hash_dict. f_equal.
    assert (Hin : forall k, k ∈ sorted d.*1 -> is_Some (dict_get d k)).
    { intros k Hk. apply dict_get_elem. now rewrite <- sorted_Permutation. }
    induction (sorted d.*1) as [|k l IH]; [reflexivity|].
    destruct (Hin k) as [v Hv]; [left|].
    rewrite (omap_cons _ k l), fmap_cons, Hv. simpl. f_equal. apply IH.
    intros k' Hk'. apply Hin. now right.
  - apply sorted_Sorted.
  - apply sorted_Permutation.
Qed.

(** *** The cache methods, run *)

(** Unfolds the monad down to state passing. *)
Ltac run :=
  repeat progress
    (unfold bind, ret, raise, lift, emit, get_db, put_db, get_cache, setitem,
       delitem, getitem, in_world; simpl).

Lemma invalidate_entry_run (kwargs : list (string * pyval))
    (c : gmap pyval pyobj) (w : world) :
  invalidate_entry kwargs (c, w) = (Ok tt, (base.delete (_hash_dict kwargs) c, w)).
Proof.
  unfold invalidate_entry, bind, get_cache, delitem, ret. simpl.
  destruct (c !! _hash_dict kwargs) eqn:E; [reflexivity|].
  now rewrite delete_id.
Qed.

(** A hit in [query_one]: the cache and the world are left as they are and
    the call hands back [None], whatever the slot holds. *)
Lemma query_one_hit_run (table : table_class) (args : list pyval)
    (obj_id column_name : pyval) (c : gmap pyval pyobj) (w : world)
    (v : pyobj) :
  c !! PTuple args = Some v ->
  query_one table args obj_id column_name (c, w) = (Ok ONone, (c, w)).
Proof.
  intros H. unfold query_one, bind, get_cache, ret. simpl. now rewrite H.
Qed.

(** A hit in [query_all] hands back what the slot holds. *)
Lemma query_all_hit_run (table : table_class) (args : list pyval)
    (c : gmap pyval pyobj) (w : world) (v : pyobj) :
  c !! PTuple args = Some v ->
  query_all table args (c, w) = (Ok v, (c, w)).
Proof.
  intros H. unfold query_all. run. rewrite H. run. now rewrite H.
Qed.

(** A miss in [query_one]: the store is asked, the first row or [None] is
    stored under the positional arguments and handed back. *)
Lemma query_one_miss_run (table : table_class) (args : list pyval)
    (obj_id column_name : pyval) (c : gmap pyval pyobj) (w w' : world)
    (rows : list row) :
  c !! PTuple args = None ->
  get_by_attribute table obj_id column_name w = (Ok rows, w') ->
  query_one table args obj_id column_name (c, w)
  = (Ok (single rows), (<[PTuple args := single rows]> c, w')).
Proof.
  intros H G. cbv [query_one bind get_cache in_world]. cbn [fst snd].
  rewrite H. cbn [fst snd]. rewrite G.
  destruct rows as [|r rows]; run;
    rewrite lookup_insert_eq, insert_insert_eq; reflexivity.
Qed.


(** C3: on a hit [query_one] does not hand back what the cache holds.  When
    the slot for the positional arguments holds a record, [query_one]
    leaves cache and store alone and hands back [None]: its [return] sits
    inside the branch of the miss.  [query_all], built the same way, hands
    back the slot. *)
Theorem query_one_hit_returns_none (table : table_class)
    (args : list pyval) (obj_id column_name : pyval)
    (c : gmap pyval pyobj) (w : world) (r : row) :
  c !! PTuple args = Some (ORecord r) ->
  query_one table args obj_id column_name (c, w) = (Ok ONone, (c, w))
  /\ query_all table args (c, w) = (Ok (ORecord r), (c, w)).
Proof.
  intros H. split.
  - now apply query_one_hit_run with (v := ORecord r).
  - now apply query_all_hit_run.
Qed.

Lemma query_one_hit_returns_none_witness :
  query_one afk_status [] (PInt 7) (PStr "user_id")
    ({[PTuple [] := ORecord row_7_meeting]}, mkWorld afk_store [])
  = (Ok ONone,
     ({[PTuple [] := ORecord row_7_meeting]}, mkWorld afk_store [])).
Proof.
  refine (proj1 (query_one_hit_returns_none afk_status [] (PInt 7)
                   (PStr "user_id") {[PTuple [] := ORecord row_7_meeting]}
                   (mkWorld afk_store []) row_7_meeting _)).
  apply lookup_singleton_eq.
Defined.

(** *** [invalidate_entry] against the keys of the queries *)

(** [invalidate_entry] removes the entry under [_hash_dict(kwargs)] and
    no other. *)
Lemma invalidate_entry_lookup (kwargs : list (string * pyval))
    (c : gmap pyval pyobj) (w : world) (k : pyval) :
  (invalidate_entry kwargs (c, w)).2.1 !! k
  = if decide (_hash_dict kwargs = k) then None else c !! k.
Proof. rewrite invalidate_entry_run. simpl. apply lookup_delete. Qed.

(** A query whose positional arguments are that very key does reach the
    store afterwards. *)
Lemma query_one_after_invalidate (table : table_class)
    (kwargs : list (string * pyval)) (args : list pyval)
    (obj_id column_name : pyval) (c : gmap pyval pyobj) (w w' : world)
    (rows : list row) :
  PTuple args = _hash_dict kwargs ->
  get_by_attribute table obj_id column_name w = (Ok rows, w') ->
  (invalidate_entry kwargs ;;; query_one table args obj_id column_name) (c, w)
  = (Ok (single rows),
     (<[PTuple args := single rows]> (base.delete (PTuple args) c), w')).
Proof.
  intros Hk G. unfold bind at 1. rewrite invalidate_entry_run, <- Hk.
  apply query_one_miss_run; [apply lookup_delete_eq | assumption].
Qed.

(** The key of keyword arguments is the empty tuple only when there are
    none: the entry a query without positional arguments created is out of
    the reach of any [invalidate_entry] that names a parameter. *)
Lemma hash_dict_nonempty (k : string) (v : pyval)
    (kwargs : list (string * pyval)) :
  _hash_dict ((k, v) :: kwargs) <> PTuple [].
Proof.
  unfold _hash_dict.
  pose proof (sorted_Permutation ((k, v) :: kwargs).*1) as HP.
  destruct (sorted ((k, v) :: kwargs).*1) as [|k' l]; intros H.
  - apply Permutation_nil in HP. discriminate.
  - assert (Hin : k' ∈ ((k, v) :: kwargs).*1).
    { rewrite <- HP. left. }
    apply dict_get_elem in Hin. destruct Hin as [v' Hv'].
    rewrite omap_cons, Hv' in H. discriminate.
Qed.

(** C4: a query is not keyed the way [invalidate_entry] is.  [query_one]
    files its result under its positional arguments and leaves the keyword
    parameters out of the key; [invalidate_entry] removes the entry under
    the sorted keyword parameters.  So after [query_one(obj_id=7,
    column_name="user_id")], [invalidate_entry] with the same parameters
    removes nothing and the same query again is answered by the cache: the
    store has been asked once in all. *)
Theorem invalidate_entry_misses_query_key :
  (query_one afk_status [] (PInt 7) (PStr "user_id") ;;;
   invalidate_entry [("obj_id", PInt 7); ("column_name", PStr "user_id")] ;;;
   query_one afk_status [] (PInt 7) (PStr "user_id"))
    (∅, mkWorld afk_store [])
  = (Ok ONone,
     ({[PTuple [] := ONone]},
      mkWorld afk_store
        [EvFetch "SELECT * FROM afk_status WHERE $1 = $2"
           [PStr "user_id"; PInt 7]])).
Proof. vm_compute. reflexivity. Qed.

(** *** [get_by_attribute] and its wrappers *)

Lemma filter_const {A} (b : bool) (l : list A) :
  List.filter (fun _ => b) l = if b then l else [].
Proof.
  destruct b; induction l as [|x l IH]; simpl; congruence.
Qed.

(** The text [get_by_attribute] sends is the text of the clause the store
    is modelled to read in it. *)
Lemma get_by_attribute_text (t : string) :
  "SELECT * FROM " +:+ t +:+ " WHERE $1 = $2"
  = "SELECT * FROM " +:+ t +:+ " WHERE " +:+ where_text [(Param 1, Param 2)].
Proof. reflexivity. Qed.

(** The clause compares the two arguments with each other, so it holds on
    every row or on none: the answer is the whole table when the column
    name and the value are the same value, and nothing otherwise. *)
Lemma get_by_attribute_run (cls : table_class) (obj_id column_name : pyval)
    (w : world) (rows : list row) :
  tables (db w) !! __tablename__ cls = Some rows ->
  get_by_attribute cls obj_id column_name w
  = (Ok (if sql_eq column_name obj_id then rows else []),
     mkWorld (db w)
       (log w ++ [EvFetch ("SELECT * FROM " +:+ __tablename__ cls
                             +:+ " WHERE $1 = $2")
                    [column_name; obj_id]])).
Proof.
  intros H. unfold get_by_attribute, conn_fetch, select_rows. run.
  rewrite H. do 2 f_equal.
  unfold where_holds, cond_holds. simpl.
  rewrite <- (filter_const (sql_eq column_name obj_id) rows).
  induction rows as [|r rows IH]; simpl; [reflexivity|].
  now rewrite andb_true_r.
Qed.

(** C6: [get_by_attribute] does not select by the named column.  With the
    rows (7, "meeting") and (8, "lunch") in [afk_status], the query for
    [reason = "lunch"] hands back no row although one row has that reason,
    and so does the query for [user_id = 7]: the statement binds the column
    name to [$1] as a value and compares it with the other argument. *)
Theorem get_by_attribute_compares_arguments :
  (get_by_attribute afk_status (PStr "lunch") (PStr "reason")
     (mkWorld afk_store [])).1 = Ok []
  /\ rows_with "reason" (PStr "lunch") [row_7_meeting; row_8_lunch]
     = [row_8_lunch]
  /\ (get_by_attribute afk_status (PInt 7) (PStr "user_id")
        (mkWorld afk_store [])).1 = Ok []
  /\ rows_with "user_id" (PInt 7) [row_7_meeting; row_8_lunch]
     = [row_7_meeting].
Proof. vm_compute. repeat split; reflexivity. Qed.

Lemma wrapper_run (cls : table_class) (x column : pyval) (w : world) :
  (stmt <- get_by_attribute cls x column ;; ret (Some stmt)) w
  = (outcome_map Some (get_by_attribute cls x column w).1,
     (get_by_attribute cls x column w).2).
Proof.
  unfold bind. destruct (get_by_attribute cls x column w) as [[rows|e] w'];
    reflexivity.
Qed.

(** C9: [get_by_id] hands back [None].  On every table that exists, and
    whatever its rows, [get_by_id] sends the query of [get_by_attribute]
    for the column name ["id"], drops the rows it gets and hands back
    [None]; the wrappers for guild, channel, user and role hand back what
    [get_by_attribute] gives for their default column names. *)
Theorem get_by_id_returns_none (cls : table_class) (obj_id : pyval)
    (w : world) (rows : list row) :
  tables (db w) !! __tablename__ cls = Some rows ->
  (exists found,
     get_by_attribute cls obj_id (PStr "id") w
     = (Ok found, (get_by_id cls obj_id w).2))
  /\ (get_by_id cls obj_id w).1 = Ok None
  /\ log (get_by_id cls obj_id w).2
     = (log w ++ [EvFetch ("SELECT * FROM " +:+ __tablename__ cls
                             +:+ " WHERE $1 = $2") [PStr "id"; obj_id]])%list
  /\ (forall x,
        get_by_guild cls x guild_column_default w
        = (outcome_map Some (get_by_attribute cls x (PStr "guild_id") w).1,
           (get_by_attribute cls x (PStr "guild_id") w).2)
        /\ get_by_channel cls x channel_column_default w
           = (outcome_map Some
                (get_by_attribute cls x (PStr "channel_id") w).1,
              (get_by_attribute cls x (PStr "channel_id") w).2)
        /\ get_by_user cls x user_column_default w
           = (outcome_map Some (get_by_attribute cls x (PStr "user_id") w).1,
              (get_by_attribute cls x (PStr "user_id") w).2)
        /\ get_by_role cls x role_column_default w
           = (outcome_map Some (get_by_attribute cls x (PStr "role_id") w).1,
              (get_by_attribute cls x (PStr "role_id") w).2)).
Proof.
  intros H. unfold get_by_id, bind.
  rewrite (get_by_attribute_run cls obj_id (PStr "id") w rows H). simpl.
  split; [eauto|]. split; [reflexivity|]. split; [reflexivity|].
  intros x. repeat split; apply wrapper_run.
Qed.

Lemma get_by_id_returns_none_witness :
  (get_by_id afk_status (PInt 7) (mkWorld afk_store [])).1 = Ok None.
Proof.
  refine (proj1 (proj2 (get_by_id_returns_none afk_status (PInt 7)
                          (mkWorld afk_store [])
                          [row_7_meeting; row_8_lunch] _))).
  vm_compute. reflexivity.
Defined.

(** *** [delete] *)

Lemma app_assoc_str (a b c : string) : (a +:+ b) +:+ c = a +:+ (b +:+ c).
Proof.
  induction a as [|x a IH]; [reflexivity|].
  change (String x ((a +:+ b) +:+ c) = String x (a +:+ (b +:+ c))).
  now rewrite IH.
Qed.

Lemma app_empty_r (a : string) : a +:+ "" = a.
Proof.
  induction a as [|x a IH]; [reflexivity|].
  change (String x (a +:+ "") = String x a). now rewrite IH.
Qed.

Lemma fold_delete_and (l : list nat) (statement : string) :
  fold_left delete_and l statement
  = statement
      +:+ fold_left delete_and l "".
Proof.
  revert statement. induction l as [|i l IH]; intros statement; simpl.
  - now rewrite app_empty_r.
  - rewrite IH, (IH (delete_and "" i)). unfold delete_and.
    now rewrite (app_assoc_str statement).
Qed.

(** With no condition the statement still names [$1] and [$2] and is sent
    without arguments: the store refuses it and no row goes. *)
Lemma delete_empty_refused (cls : table_class) (w : world) :
  delete cls [] w
  = (Raise (PostgresError "there is no parameter"),
     mkWorld (db w)
       (log w ++ [EvExecute (delete_statement (__tablename__ cls) 0) []])).
Proof. reflexivity. Qed.

(** With one condition the clause holds on every row or on none. *)
Lemma delete_one_run (cls : table_class) (column value : pyval) (w : world)
    (rows : list row) :
  tables (db w) !! __tablename__ cls = Some rows ->
  (db <$> Some (delete cls [(column, value)] w).2)
  = Some (mkStore
            (<[__tablename__ cls := if sql_eq column value then [] else rows]>
               (tables (db w)))
            (versions (db w))).
Proof.
  intros H. unfold delete, conn_execute_delete, delete_rows. run.
  rewrite H. simpl. do 3 f_equal.
  unfold where_holds, cond_holds. simpl.
  rewrite (List.filter_ext _ (fun _ : row => negb (sql_eq column value))).
  - rewrite filter_const. now destruct (sql_eq column value).
  - intros r. simpl. now rewrite andb_true_r.
Qed.

(** C7: [delete] with conditions does not delete the matching rows.  With
    the rows (7, "meeting") and (8, "lunch") in [afk_status], the condition
    [("user_id", 7)] deletes nothing, and a condition whose two members are
    the same value, such as [("reason", "reason")], deletes every row: the
    statement compares the two arguments of each tuple with each other.
    The empty list is refused by the store and deletes nothing. *)
Theorem delete_compares_arguments :
  db (delete afk_status [(PStr "user_id", PInt 7)] (mkWorld afk_store [])).2
  = afk_store
  /\ tables
       (db (delete afk_status [(PStr "reason", PStr "reason")]
              (mkWorld afk_store [])).2) !! "afk_status" = Some []
  /\ (delete afk_status [] (mkWorld afk_store [])).1
     = Raise (PostgresError "there is no parameter")
  /\ db (delete afk_status [] (mkWorld afk_store [])).2 = afk_store.
Proof. vm_compute. repeat split; reflexivity. Qed.

Lemma join_cons (sep x : string) (l : list string) :
  join sep (x :: l) = x +:+ fold_right (fun y acc => sep +:+ y +:+ acc) "" l.
Proof.
  revert x. induction l as [|y l IH]; intros x.
  - simpl. now rewrite app_empty_r.
  - change (join sep (x :: y :: l)) with (x +:+ sep +:+ join sep (y :: l)).
    now rewrite IH.
Qed.

Lemma delete_tail_text (l : list nat) :
  fold_left delete_and l ""
  = fold_right (fun y acc => " AND " +:+ y +:+ acc) ""
      (map cond_text
         (map (fun i => (Param (2 * i + 1), Param (2 * i + 2))) l)).
Proof.
  induction l as [|i l IH]; [reflexivity|].
  cbn [fold_left map fold_right]. rewrite fold_delete_and, IH.
  unfold delete_and, cond_text, operand_text. cbn [fst snd].
  now rewrite !app_assoc_str.
Qed.

(** The text [delete] builds is the text of the clause the store is
    modelled to read in it. *)
Lemma delete_statement_text (t : string) (n : nat) :
  delete_statement t n
  = nl +:+ indent +:+ "DELETE FROM  " +:+ t +:+ nl +:+ indent +:+ "WHERE "
      +:+ where_text (delete_where n) +:+ ";".
Proof.
  unfold delete_statement, where_text, delete_where.
  rewrite map_cons, join_cons, <- delete_tail_text.
  assert (Hfold : (if bool_decide (1 < n)%nat
                   then fold_left delete_and (seq 1 (n - 1))
                          (nl +:+ indent +:+ "DELETE FROM  " +:+ t +:+ nl
                             +:+ indent +:+ "WHERE $1 = $2")
                   else nl +:+ indent +:+ "DELETE FROM  " +:+ t +:+ nl
                          +:+ indent +:+ "WHERE $1 = $2")
                  = (nl +:+ indent +:+ "DELETE FROM  " +:+ t +:+ nl
                       +:+ indent +:+ "WHERE $1 = $2")
                      +:+ fold_left delete_and (seq 1 (n - 1)) "").
  { case_bool_decide.
    - apply fold_delete_and.
    - replace (n - 1)%nat with 0%nat by lia. simpl fold_left.
      now rewrite app_empty_r. }
  rewrite Hfold. unfold cond_text, operand_text. cbn [fst snd].
  now rewrite !app_assoc_str.
Qed.

(** *** [update_or_add] *)

(** The first loop keeps the attributes that are not [None], in order. *)
Lemma collect_filter (items : list (string * pyval)) :
  collect items
  = ((List.filter (fun kv => negb (bool_decide (kv.2 = PNone))) items).*1,
     (List.filter (fun kv => negb (bool_decide (kv.2 = PNone))) items).*2).
Proof.
  unfold collect.
  assert (H : forall acc : list string * list pyval,
             fold_left collect_item items acc
             = ((acc.1 ++ (List.filter
                             (fun kv => negb (bool_decide (kv.2 = PNone)))
                             items).*1)%list,
                (acc.2 ++ (List.filter
                             (fun kv => negb (bool_decide (kv.2 = PNone)))
                             items).*2)%list)).
  { induction items as [|[k v] items IH]; intros [ks vs]; simpl.
    - now rewrite !app_nil_r.
    - rewrite IH. destruct v; simpl; try reflexivity;
        now rewrite <- !app_assoc. }
  now rewrite H.
Qed.

Lemma update_step_piece (uniques keys : list string) (updates key : string) :
  update_step uniques keys updates key
  = updates +:+ update_piece uniques keys key.
Proof.
  unfold update_step, update_piece.
  repeat case_bool_decide; rewrite ?app_empty_r, ?app_assoc_str; reflexivity.
Qed.

Lemma fold_update_step (uniques keys l : list string) (updates : string) :
  fold_left (update_step uniques keys) l updates
  = updates +:+ flatten (map (update_piece uniques keys) l).
Proof.
  revert updates. induction l as [|k l IH]; intros updates; simpl.
  - now rewrite app_empty_r.
  - now rewrite IH, update_step_piece, app_assoc_str.
Qed.

Lemma build_updates_pieces (uniques keys : list string) :
  build_updates uniques keys = flatten (map (update_piece uniques keys) keys).
Proof. unfold build_updates. now rewrite fold_update_step. Qed.

(** In a list without repetition [index] is the position. *)
Lemma index_lookup (keys : list string) (i : nat) (key : string) :
  NoDup keys -> keys !! i = Some key -> index key keys = Some i.
Proof.
  intros N H. unfold index.
  assert (E : list_find (fun k => k = key) keys = Some (i, key)).
  { apply list_find_Some. split; [exact H|]. split; [reflexivity|].
    intros j y Hj Hlt ->.
    pose proof (NoDup_lookup keys i j key N H Hj). lia. }
  now rewrite E.
Qed.

(** The text after an assignment: [" ;"] after the key in the last
    position of [keys], a comma after every other. *)
Lemma update_piece_at (uniques keys : list string) (i : nat) (key : string) :
  NoDup keys -> keys !! i = Some key -> key ∉ uniques ->
  update_piece uniques keys key
  = key +:+ " = EXCLUDED." +:+ key
      +:+ (if bool_decide (S i = length keys) then " ;" else ", " +:+ nl).
Proof.
  intros N H Hu. unfold update_piece.
  rewrite (index_lookup keys i key N H). simpl.
  rewrite bool_decide_eq_false_2 by exact Hu.
  pose proof (lookup_lt_Some keys i key H).
  repeat case_bool_decide; try reflexivity; exfalso.
  - match goal with E : Some _ = Some _ |- _ => injection E as E end. lia.
  - match goal with E : Some _ <> Some _ |- _ => apply E end. f_equal. lia.
Qed.

Lemma flatten_map_ext (f g : string -> string) (l : list string) :
  (forall x, x ∈ l -> f x = g x) ->
  flatten (map f l) = flatten (map g l).
Proof.
  induction l as [|x l IH]; intros H; simpl; [reflexivity|].
  rewrite (H x) by left. rewrite IH; [reflexivity|].
  intros y Hy. apply H. now right.
Qed.

Lemma flatten_piece_comma (uniques l : list string) :
  flatten (map (piece_comma uniques) l)
  = flatten (map assignment_comma
               (List.filter (fun k => negb (bool_decide (k ∈ uniques))) l)).
Proof.
  induction l as [|k l IH]; simpl; [reflexivity|].
  unfold piece_comma at 1. case_bool_decide; simpl; now rewrite IH.
Qed.

Lemma flatten_app (l1 l2 : list string) :
  flatten (l1 ++ l2) = flatten l1 +:+ flatten l2.
Proof.
  induction l1 as [|x l1 IH]; simpl; [reflexivity|].
  now rewrite IH, app_assoc_str.
Qed.

(** Every key before the last one gets the comma. *)
Lemma update_piece_init (uniques init : list string) (z key : string) :
  NoDup (init ++ [z]) -> key ∈ init ->
  update_piece uniques (init ++ [z]) key = piece_comma uniques key.
Proof.
  intros N Hk. unfold piece_comma.
  destruct (decide (key ∈ uniques)) as [Hin|Hin].
  - unfold update_piece. now rewrite !bool_decide_eq_true_2 by exact Hin.
  - apply list_elem_of_lookup in Hk as [i Hi].
    pose proof (lookup_lt_Some init i key Hi) as Hlt.
    rewrite (update_piece_at uniques (init ++ [z]) i key N).
    + rewrite (bool_decide_eq_false_2 (key ∈ uniques)) by exact Hin.
      rewrite bool_decide_eq_false_2; [reflexivity|].
      rewrite length_app. simpl. lia.
    + now apply lookup_app_l_Some.
    + exact Hin.
Qed.

(** When the last attribute that is not [None] is a unique column, every
    assignment of the [SET] clause is followed by a comma and none by the
    closing [" ;"]: the clause ends in a comma, or is empty when every
    attribute is unique. *)
Lemma build_updates_unique_last (uniques init : list string) (u : string) :
  NoDup (init ++ [u]) -> u ∈ uniques ->
  build_updates uniques (init ++ [u])
  = flatten (map assignment_comma
               (List.filter (fun k => negb (bool_decide (k ∈ uniques))) init)).
Proof.
  intros N Hu. rewrite build_updates_pieces, map_app, flatten_app. simpl.
  unfold update_piece at 2. rewrite bool_decide_eq_true_2 by exact Hu.
  simpl. rewrite app_empty_r, <- flatten_piece_comma.
  apply flatten_map_ext. intros k Hk. now apply update_piece_init.
Qed.

(** When it is not, the clause is the comma-separated assignments of the
    columns that are not unique, closed by [" ;"]. *)
Lemma build_updates_plain_last (uniques init : list string) (z : string) :
  NoDup (init ++ [z]) -> z ∉ uniques ->
  build_updates uniques (init ++ [z])
  = flatten (map assignment_comma
               (List.filter (fun k => negb (bool_decide (k ∈ uniques))) init))
      +:+ z +:+ " = EXCLUDED." +:+ z +:+ " ;".
Proof.
  intros N Hz. rewrite build_updates_pieces, map_app, flatten_app. simpl.
  rewrite (update_piece_at uniques (init ++ [z]) (length init) z N).
  - rewrite bool_decide_eq_true_2 by (rewrite length_app; simpl; lia).
    rewrite app_empty_r, <- flatten_piece_comma. f_equal.
    apply flatten_map_ext. intros k Hk. now apply update_piece_init.
  - now rewrite list_lookup_middle.
  - exact Hz.
Qed.

(** C1: [update_or_add] on a record whose unique column comes last.  For
    the [afk_status] record with [reason = "lunch"] set before
    [user_id = 7], the statement handed to the store has a [SET] clause
    that ends in a comma, with no closing [" ;"], and names the conflict
    target as the Python list [['user_id']]; with [user_id] set first the
    [SET] clause is closed but the conflict target is the same text. *)
Theorem update_or_add_unique_column_last :
  update_or_add_call
    (mkObject afk_status [("reason", PStr "lunch"); ("user_id", PInt 7)])
  = (nl +:+ indent +:+ "INSERT INTO afk_status (reason, user_id)" +:+ nl
       +:+ indent +:+ "VALUES($1,$2) " +:+ nl
       +:+ indent +:+ "ON CONFLICT (['user_id']) DO UPDATE" +:+ nl
       +:+ indent +:+ "SET reason = EXCLUDED.reason, " +:+ nl +:+ nl
       +:+ indent,
     [PStr "lunch"; PInt 7])
  /\ update_or_add_call
       (mkObject afk_status [("user_id", PInt 7); ("reason", PStr "lunch")])
     = (nl +:+ indent +:+ "INSERT INTO afk_status (user_id, reason)" +:+ nl
          +:+ indent +:+ "VALUES($1,$2) " +:+ nl
          +:+ indent +:+ "ON CONFLICT (['user_id']) DO UPDATE" +:+ nl
          +:+ indent +:+ "SET reason = EXCLUDED.reason ;" +:+ nl
          +:+ indent,
        [PInt 7; PStr "lunch"]).
Proof. split; vm_compute; reflexivity. Qed.

(** *** [db_migrate] *)

(** A table that is not in the store: [initial_create] and nothing else. *)
Lemma migrate_class_absent (cls : table_class) (w : world) :
  table_exists (__tablename__ cls) (db w) = false ->
  migrate_class cls w
  = initial_create cls
      (mkWorld (db w)
         (log w ++ [EvFetch exists_query [PStr (__tablename__ cls)];
                    EvInitialCreate (__tablename__ cls)])).
Proof.
  intros H. unfold migrate_class. run. rewrite H. run.
  now rewrite <- app_assoc.
Qed.

(** A table without a row in [versions]: [initial_migrate] and nothing
    else. *)
Lemma migrate_class_unversioned (cls : table_class) (w : world)
    (vs : gmap string Z) :
  table_exists (__tablename__ cls) (db w) = true ->
  versions (db w) = Some vs -> vs !! __tablename__ cls = None ->
  migrate_class cls w
  = initial_migrate cls
      (mkWorld (db w)
         (log w ++ [EvFetch exists_query [PStr (__tablename__ cls)];
                    EvFetch version_query [PStr (__tablename__ cls)];
                    EvInitialMigrate (__tablename__ cls)])).
Proof.
  intros H Hv Hn. unfold migrate_class, select_version. run.
  rewrite H. run. rewrite Hv, Hn. run. now rewrite <- !app_assoc.
Qed.

(** A table at version [v]: the steps [range(v + 1, len - 2)] when [v] is
    below the number of steps, nothing otherwise.  The runner itself never
    writes to [versions]. *)
Lemma migrate_class_versioned (cls : table_class) (w : world)
    (vs : gmap string Z) (v : Z) :
  table_exists (__tablename__ cls) (db w) = true ->
  versions (db w) = Some vs -> vs !! __tablename__ cls = Some v ->
  migrate_class cls w
  = (if bool_decide (v < Z.of_nat (size (__versions__ cls)))
     then for_each (py_range (v + 1) (Z.of_nat (size (__versions__ cls)) - 2))
            (call_version cls)
     else ret tt)
      (mkWorld (db w)
         (log w ++ [EvFetch exists_query [PStr (__tablename__ cls)];
                    EvFetch version_query [PStr (__tablename__ cls)]])).
Proof.
  intros H Hv Hn. unfold migrate_class, select_version. run.
  rewrite H. run. rewrite Hv, Hn. run. now rewrite <- !app_assoc.
Qed.

(** C2: the steps run for a table at version 2 of 5.  For a table that is
    in the store with stored version 2 and a class that defines five
    migration steps, [db_migrate] looks up the table and its version and
    then calls no step at all ([range(3, 3)] is empty), and the store,
    stored version included, is left as it was. *)
Theorem db_migrate_version_2_of_5 (cls : table_class) (s : store)
    (vs : gmap string Z) :
  size (__versions__ cls) = 5%nat ->
  table_exists (__tablename__ cls) s = true ->
  versions s = Some vs ->
  vs !! __tablename__ cls = Some 2 ->
  db_migrate [cls] (mkWorld s [])
  = (Ok tt,
     mkWorld s [EvExecute versions_ddl [];
                EvFetch exists_query [PStr (__tablename__ cls)];
                EvFetch version_query [PStr (__tablename__ cls)]]).
Proof.
  intros Hn He Hv H2.
  assert (Hs : create_versions s = s).
  { unfold create_versions. now rewrite Hv. }
  unfold db_migrate. run. rewrite Hs.
  rewrite (migrate_class_versioned cls
             (mkWorld s [EvExecute versions_ddl []]) vs 2 He Hv H2), Hn.
  reflexivity.
Qed.

Lemma db_migrate_version_2_of_5_witness :
  db_migrate [afk_status_v5] (mkWorld afk_store_v2 [])
  = (Ok tt,
     mkWorld afk_store_v2
       [EvExecute versions_ddl [];
        EvFetch exists_query [PStr "afk_status"];
        EvFetch version_query [PStr "afk_status"]]).
Proof.
  refine (db_migrate_version_2_of_5 afk_status_v5 afk_store_v2
            {["afk_status" := 2]} _ _ _ _);
    vm_compute; reflexivity.
Defined.

(** On a table that is not in the store the runner does what
    [initial_create] does, after making sure [versions] exists: no row of
    [versions] is written unless [initial_create] writes it. *)
Lemma db_migrate_absent (cls : table_class) (s : store) :
  table_exists (__tablename__ cls) (create_versions s) = false ->
  db_migrate [cls] (mkWorld s [])
  = (initial_create cls ;;; ret tt)
      (mkWorld (create_versions s)
         [EvExecute versions_ddl [];
          EvFetch exists_query [PStr (__tablename__ cls)];
          EvInitialCreate (__tablename__ cls)]).
Proof.
  intros H. unfold db_migrate. run.
  now rewrite (migrate_class_absent cls
                 (mkWorld (create_versions s) [EvExecute versions_ddl []]) H).
Qed.

(** C8: [db_migrate] on a fresh store.  For the [afk_status] class whose
    [initial_create] creates its table, the first run creates [versions]
    and the table and leaves [versions] without a row for the table; the
    second run finds the table without a stored version, calls
    [initial_migrate], and leaves the store as the first run left it. *)
Theorem db_migrate_fresh_table_no_version :
  let w1 := (db_migrate [afk_status_created] (mkWorld fresh_store [])).2 in
  db w1 = mkStore {["afk_status" := []]} (Some ∅)
  /\ log w1 = [EvExecute versions_ddl [];
               EvFetch exists_query [PStr "afk_status"];
               EvInitialCreate "afk_status"]
  /\ select_version "afk_status" (db w1) = Ok None
  /\ db_migrate [afk_status_created] (mkWorld (db w1) [])
     = (Ok tt,
        mkWorld (db w1)
          [EvExecute versions_ddl [];
           EvFetch exists_query [PStr "afk_status"];
           EvFetch version_query [PStr "afk_status"];
           EvInitialMigrate "afk_status"]).
Proof. vm_compute. repeat split; reflexivity. Qed.

End DbFacts.

(** ** [dozer/bot.py] *)

Module BotFacts.
Import Bot.

(** Neither [InvalidContext] nor [CommandNotFound] is an instance of a
    class an earlier branch of the handler tests for. *)
Lemma on_command_error_silent (ctx : context) (err : error) :
  err_class err = InvalidContext \/ err_class err = CommandNotFound ->
  on_command_error ctx err = [].
Proof. intros [H|H]; unfold on_command_error; rewrite H; reflexivity. Qed.

(** Apart from these two, the handler answers nothing only to a
    [NotOwner] without arguments. *)
Lemma on_command_error_silent_only (ctx : context) (err : error) :
  on_command_error ctx err = [] ->
  err_class err = InvalidContext \/ err_class err = CommandNotFound
  \/ (err_class err = NotOwner /\ err_args err = []).
Proof.
  unfold on_command_error. destruct (err_class err) eqn:E; cbn;
    intros H; try discriminate; auto.
  destruct (err_args err); [auto | discriminate].
Qed.

Section GlobalCheckFacts.

Variable cooldown : Type.
Variable retry : Type.
Variable update_rate_limit : cooldown -> option retry * cooldown.
Variable truthy : retry -> bool.
Variable proceed : string -> context -> list action * option error.

(** C10: a message from a bot account.  For every context whose author is
    a bot, the global check raises [InvalidContext] before it touches the
    cooldown; [on_command_error] sends nothing for [InvalidContext] and
    for [CommandNotFound]; so the dispatch of the message runs no command
    and sends no reply. *)
Theorem bot_author_ignored (ctx : context) (cd : cooldown) :
  author_bot ctx = true ->
  global_checks cooldown retry update_rate_limit truthy ctx cd
  = (inr (mkError InvalidContext ["Bots cannot run commands!"] []), cd)
  /\ (forall err,
        err_class err = InvalidContext \/ err_class err = CommandNotFound ->
        on_command_error ctx err = [])
  /\ invoke cooldown retry update_rate_limit truthy proceed ctx cd = ([], cd).
Proof.
  intros H.
  assert (G : global_checks cooldown retry update_rate_limit truthy ctx cd
              = (inr (mkError InvalidContext ["Bots cannot run commands!"] []),
                 cd)).
  { unfold global_checks. now rewrite H. }
  split; [exact G|]. split; [apply on_command_error_silent|].
  unfold invoke. rewrite G.
  destruct (command ctx) as [cmd|]; [reflexivity|].
  destruct (invoked_with ctx); reflexivity.
Qed.

End GlobalCheckFacts.

Lemma bot_author_ignored_witness :
  invoke unit unit (fun cd => (None, cd)) (fun _ => true)
    (fun cmd _ => ([Ran cmd], None))
    (mkContext true "<@1>" (Some "afk") (Some "afk")) tt
  = ([], tt).
Proof.
  refine (proj2 (proj2 (bot_author_ignored unit unit (fun cd => (None, cd))
                          (fun _ => true) (fun cmd _ => ([Ran cmd], None))
                          (mkContext true "<@1>" (Some "afk") (Some "afk"))
                          tt _))).
  reflexivity.
Defined.

End BotFacts.

(** ** Further properties of [dozer/db.py] *)

Module DbExtra.
Import Py PyFacts Db DbFacts.

(** *** [update_or_add]: the first loop *)

Lemma combine_fst_snd {A B} (l : list (A * B)) : combine l.*1 l.*2 = l.
Proof.
  induction l as [|[a b] l IH]; [reflexivity|].
  change (combine ((a, b) :: l).*1 ((a, b) :: l).*2)
    with ((a, b) :: combine l.*1 l.*2).
  now rewrite IH.
Qed.

(** The names and the values [update_or_add] collects stay aligned: there
    are as many names as values, and pairing them position by position
    gives back the attributes that are not [None], in their order. *)
Theorem collect_aligned (items : list (string * pyval)) :
  length (collect items).1 = length (collect items).2
  /\ combine (collect items).1 (collect items).2
     = List.filter (fun kv => negb (bool_decide (kv.2 = PNone))) items.
Proof.
  rewrite collect_filter. simpl. split.
  - now rewrite !length_fmap.
  - apply combine_fst_snd.
Qed.

(** *** [get_all] *)

(** [get_all] on a table that is in the store hands back every row, in the
    order of the store, and leaves the store as it is. *)
Theorem get_all_returns_table (cls : table_class) (w : world)
    (rows : list row) :
  tables (db w) !! __tablename__ cls = Some rows ->
  get_all cls w
  = (Ok rows,
     mkWorld (db w)
       (log w ++ [EvFetch ("SELECT * FROM " +:+ __tablename__ cls +:+ ";")
                    []])).
Proof.
  intros H. unfold get_all, conn_fetch, select_rows. run. rewrite H.
  do 2 f_equal. apply List.filter_true.
Qed.

Lemma get_all_returns_table_witness :
  (get_all afk_status (mkWorld afk_store [])).1
  = Ok [row_7_meeting; row_8_lunch].
Proof.
  rewrite (get_all_returns_table afk_status (mkWorld afk_store [])
             [row_7_meeting; row_8_lunch]); [reflexivity|].
  vm_compute. reflexivity.
Defined.

(** *** [delete] with any number of conditions *)

Lemma delete_where_seq (n : nat) :
  delete_where (S n)
  = map (fun i => (Param (2 * i + 1), Param (2 * i + 2))) (seq 0 (S n)).
Proof. unfold delete_where. simpl. now rewrite Nat.sub_0_r. Qed.

Lemma delete_params_length (l : list (pyval * pyval)) :
  length (delete_params l) = (2 * length l)%nat.
Proof.
  induction l as [|p l IH]; [reflexivity|].
  change (delete_params (p :: l)) with (p.1 :: p.2 :: delete_params l).
  simpl length. rewrite IH. lia.
Qed.

(** The arguments of the i-th tuple sit at the positions [2i] and
    [2i + 1], where the i-th comparison of the statement looks for them. *)
Lemma delete_params_lookup (l : list (pyval * pyval)) (i : nat)
    (p : pyval * pyval) :
  l !! i = Some p ->
  delete_params l !! (2 * i)%nat = Some p.1
  /\ delete_params l !! (2 * i + 1)%nat = Some p.2.
Proof.
  revert i. induction l as [|q l IH]; intros i H; [discriminate|].
  change (delete_params (q :: l)) with (q.1 :: q.2 :: delete_params l).
  destruct i as [|i].
  - injection H as ->. split; reflexivity.
  - replace (2 * S i)%nat with (S (S (2 * i))) by lia.
    replace (S (S (2 * i)) + 1)%nat with (S (S (2 * i + 1))) by lia.
    apply (IH i H).
Qed.

Lemma delete_where_holds (args : list pyval) (r : row)
    (l : list (pyval * pyval)) (k : nat) :
  (forall i p, l !! i = Some p ->
     args !! (2 * (k + i))%nat = Some p.1
     /\ args !! (2 * (k + i) + 1)%nat = Some p.2) ->
  forallb (cond_holds args r)
    (map (fun i => (Param (2 * i + 1), Param (2 * i + 2)))
         (seq k (length l)))
  = forallb (fun p => sql_eq p.1 p.2) l.
Proof.
  revert k. induction l as [|p l IH]; intros k H; [reflexivity|].
  cbn [length seq map forallb]. f_equal.
  - destruct (H 0%nat p eq_refl) as [H1 H2].
    rewrite Nat.add_0_r in H1, H2.
    unfold cond_holds, eval_operand. cbn [fst snd].
    replace (Nat.pred (2 * k + 1)) with (2 * k)%nat by lia.
    replace (Nat.pred (2 * k + 2)) with (2 * k + 1)%nat by lia.
    now rewrite H1, H2.
  - apply IH. intros i q Hq.
    replace (S k + i)%nat with (k + S i)%nat by lia.
    now apply H.
Qed.

Lemma delete_where_bound (l : list (pyval * pyval)) :
  where_bound (delete_params l)
    (map (fun i => (Param (2 * i + 1), Param (2 * i + 2)))
         (seq 0 (length l))) = true.
Proof.
  unfold where_bound. apply forallb_forall. intros c Hc.
  apply in_map_iff in Hc as (i & <- & Hi). apply in_seq in Hi.
  cbn [fst snd operand_bound]. rewrite delete_params_length.
  rewrite !bool_decide_eq_true_2 by lia. reflexivity.
Qed.

Lemma conn_execute_delete_run (stmt t : string) (wc : where_clause)
    (args : list pyval) (w : world) (rows : list row) :
  where_bound args wc = true ->
  tables (db w) !! t = Some rows ->
  conn_execute_delete stmt t wc args w
  = (Ok tt,
     mkWorld
       (mkStore
          (<[t := List.filter (fun r => negb (where_holds args wc r)) rows]>
             (tables (db w)))
          (versions (db w)))
       (log w ++ [EvExecute stmt args])).
Proof.
  intros Hb H. unfold conn_execute_delete, delete_rows. run.
  rewrite Hb, H. reflexivity.
Qed.

(** [delete] with one or more conditions never selects rows by their
    content: on a table that is in the store it succeeds, empties the table
    when the two members of every tuple are the same value (and not
    [None]), and otherwise removes no row.  The other tables and [versions]
    stay as they are. *)
Theorem delete_all_or_nothing (cls : table_class)
    (l : list (pyval * pyval)) (w : world) (rows : list row) :
  l <> [] ->
  tables (db w) !! __tablename__ cls = Some rows ->
  delete cls l w
  = (Ok tt,
     mkWorld
       (mkStore
          (<[__tablename__ cls :=
               if forallb (fun p => sql_eq p.1 p.2) l then [] else rows]>
             (tables (db w)))
          (versions (db w)))
       (log w ++ [EvExecute (delete_statement (__tablename__ cls) (length l))
                    (delete_params l)])).
Proof.
  intros Hl H. destruct l as [|p l]; [congruence|].
  unfold delete. change (length (p :: l)) with (S (length l)).
  rewrite delete_where_seq.
  change (S (length l)) with (length (p :: l)).
  rewrite (conn_execute_delete_run _ _ _ _ w rows
             (delete_where_bound (p :: l)) H).
  do 4 f_equal.
  rewrite (List.filter_ext _
             (fun _ : row => negb (forallb (fun p => sql_eq p.1 p.2) (p :: l)))).
  - rewrite filter_const.
    now destruct (forallb (fun p0 => sql_eq p0.1 p0.2) (p :: l)).
  - intros r. f_equal. unfold where_holds.
    apply (delete_where_holds _ r (p :: l) 0).
    intros i q Hq. now apply delete_params_lookup.
Qed.

Lemma delete_all_or_nothing_witness :
  tables (db (delete afk_status
                [(PStr "user_id", PInt 7); (PStr "reason", PStr "meeting")]
                (mkWorld afk_store [])).2) !! "afk_status"
  = Some [row_7_meeting; row_8_lunch].
Proof.
  rewrite (delete_all_or_nothing afk_status
             [(PStr "user_id", PInt 7); (PStr "reason", PStr "meeting")]
             (mkWorld afk_store []) [row_7_meeting; row_8_lunch]).
  - vm_compute. reflexivity.
  - discriminate.
  - vm_compute. reflexivity.
Defined.

(** *** [get_by_attribute] over any table *)

(** [get_by_attribute] on a table that is in the store never selects by
    the column: it hands back every row when the column name and the value
    are the same value (and not [None]), and no row otherwise. *)
Theorem get_by_attribute_all_or_nothing (cls : table_class)
    (obj_id column_name : pyval) (w : world) (rows : list row) :
  tables (db w) !! __tablename__ cls = Some rows ->
  (get_by_attribute cls obj_id column_name w).1
  = Ok (if sql_eq column_name obj_id then rows else [])
  /\ db (get_by_attribute cls obj_id column_name w).2 = db w.
Proof.
  intros H. now rewrite (get_by_attribute_run cls obj_id column_name w rows H).
Qed.

Lemma get_by_attribute_all_or_nothing_witness :
  (get_by_attribute afk_status (PStr "reason") (PStr "reason")
     (mkWorld afk_store [])).1
  = Ok [row_7_meeting; row_8_lunch].
Proof.
  refine (proj1 (get_by_attribute_all_or_nothing afk_status (PStr "reason")
                   (PStr "reason") (mkWorld afk_store [])
                   [row_7_meeting; row_8_lunch] _)).
  vm_compute. reflexivity.
Defined.

(** *** The [SET] clause of [update_or_add] *)

Lemma build_updates_unique_last_witness :
  build_updates ["user_id"] ["reason"; "note"; "user_id"]
  = "reason = EXCLUDED.reason, " +:+ nl +:+ "note = EXCLUDED.note, " +:+ nl.
Proof.
  change ["reason"; "note"; "user_id"] with (["reason"; "note"] ++ ["user_id"])%list.
  rewrite (build_updates_unique_last ["user_id"] ["reason"; "note"] "user_id").
  - vm_compute. reflexivity.
  - apply (bool_decide_unpack _). vm_compute. exact I.
  - apply (bool_decide_unpack _). vm_compute. exact I.
Defined.

Lemma build_updates_plain_last_witness :
  build_updates ["user_id"] ["user_id"; "note"; "reason"]
  = "note = EXCLUDED.note, " +:+ nl +:+ "reason = EXCLUDED.reason ;".
Proof.
  change ["user_id"; "note"; "reason"] with (["user_id"; "note"] ++ ["reason"])%list.
  rewrite (build_updates_plain_last ["user_id"] ["user_id"; "note"] "reason").
  - vm_compute. reflexivity.
  - apply (bool_decide_unpack _). vm_compute. exact I.
  - apply (bool_decide_unpack _). vm_compute. exact I.
Defined.

(** *** [query_all] and the age of its answers *)

Lemma query_all_miss_run (table : table_class) (args : list pyval)
    (c : gmap pyval pyobj) (w w' : world) (rows : list row) :
  c !! PTuple args = None ->
  get_all table w = (Ok rows, w') ->
  query_all table args (c, w)
  = (Ok (ORows rows), (<[PTuple args := ORows rows]> c, w')).
Proof.
  intros H G. cbv [query_all bind get_cache in_world]. cbn [fst snd].
  rewrite H. cbn [fst snd]. rewrite G. run.
  now rewrite lookup_insert_eq.
Qed.

(** Two calls of [query_all] with the same positional arguments ask the
    store once: the first call files the rows of the table, the second one
    hands the same rows back from the cache. *)
Theorem query_all_asks_once (table : table_class) (args : list pyval)
    (c : gmap pyval pyobj) (w : world) (rows : list row) :
  c !! PTuple args = None ->
  tables (db w) !! __tablename__ table = Some rows ->
  (query_all table args ;;; query_all table args) (c, w)
  = (Ok (ORows rows),
     (<[PTuple args := ORows rows]> c,
      mkWorld (db w)
        (log w ++ [EvFetch ("SELECT * FROM " +:+ __tablename__ table +:+ ";")
                     []]))).
Proof.
  intros H Ht. unfold bind.
  rewrite (query_all_miss_run table args c w _ rows H
             (get_all_returns_table table w rows Ht)).
  apply query_all_hit_run with (v := ORows rows). apply lookup_insert_eq.
Qed.

Lemma query_all_asks_once_witness :
  ((query_all afk_status [] ;;; query_all afk_status [])
     (∅, mkWorld afk_store [])).1
  = Ok (ORows [row_7_meeting; row_8_lunch]).
Proof.
  rewrite (query_all_asks_once afk_status [] ∅ (mkWorld afk_store [])
             [row_7_meeting; row_8_lunch]); [reflexivity| |].
  - apply lookup_empty.
  - vm_compute. reflexivity.
Defined.

(** The cache does not notice a write: when a [delete] that empties the
    table runs between two calls of [query_all], the second call still
    hands back the rows the first one saw. *)
Theorem query_all_stale_after_delete (table : table_class)
    (args : list pyval) (l : list (pyval * pyval))
    (c : gmap pyval pyobj) (w : world) (rows : list row) :
  c !! PTuple args = None ->
  tables (db w) !! __tablename__ table = Some rows ->
  l <> [] ->
  forallb (fun p => sql_eq p.1 p.2) l = true ->
  (query_all table args ;;; in_world (delete table l) ;;;
   query_all table args) (c, w)
  = (Ok (ORows rows),
     (<[PTuple args := ORows rows]> c,
      mkWorld
        (mkStore (<[__tablename__ table := []]> (tables (db w)))
                 (versions (db w)))
        ((log w ++ [EvFetch ("SELECT * FROM " +:+ __tablename__ table
                               +:+ ";") []])
           ++ [EvExecute (delete_statement (__tablename__ table) (length l))
                 (delete_params l)]))).
Proof.
  intros H Ht Hl Hall. unfold bind at 1.
  rewrite (query_all_miss_run table args c w _ rows H
             (get_all_returns_table table w rows Ht)).
  unfold bind, in_world. cbn [fst snd].
  rewrite (delete_all_or_nothing table l
             (mkWorld (db w)
                (log w ++ [EvFetch ("SELECT * FROM " +:+ __tablename__ table
                                      +:+ ";") []]))
             rows Hl Ht), Hall.
  apply query_all_hit_run with (v := ORows rows). apply lookup_insert_eq.
Qed.

Lemma query_all_stale_after_delete_witness :
  ((query_all afk_status [] ;;;
    in_world (delete afk_status [(PStr "reason", PStr "reason")]) ;;;
    query_all afk_status []) (∅, mkWorld afk_store [])).1
  = Ok (ORows [row_7_meeting; row_8_lunch]).
Proof.
  rewrite (query_all_stale_after_delete afk_status []
             [(PStr "reason", PStr "reason")] ∅ (mkWorld afk_store [])
             [row_7_meeting; row_8_lunch]); [reflexivity| | | |].
  - apply lookup_empty.
  - vm_compute. reflexivity.
  - discriminate.
  - vm_compute. reflexivity.
Defined.

(** *** [query_one] on a miss *)

(** A miss in [query_one] on a table that is in the store always leaves an
    entry under the positional arguments: the first row when the store
    answered with rows, the marker [None] when it answered with none; that
    entry is what the call hands back, and the store was asked once. *)
Theorem query_one_miss_files_entry (table : table_class)
    (args : list pyval) (obj_id column_name : pyval)
    (c : gmap pyval pyobj) (w : world) (rows : list row) :
  c !! PTuple args = None ->
  tables (db w) !! __tablename__ table = Some rows ->
  query_one table args obj_id column_name (c, w)
  = (Ok (single (if sql_eq column_name obj_id then rows else [])),
     (<[PTuple args := single (if sql_eq column_name obj_id then rows else [])]> c,
      mkWorld (db w)
        (log w ++ [EvFetch ("SELECT * FROM " +:+ __tablename__ table
                              +:+ " WHERE $1 = $2") [column_name; obj_id]]))).
Proof.
  intros H Ht. apply query_one_miss_run; [exact H|].
  now apply get_by_attribute_run.
Qed.

Lemma query_one_miss_files_entry_witness :
  (query_one afk_status [] (PInt 7) (PStr "user_id")
     (∅, mkWorld afk_store [])).2.1 !! PTuple []
  = Some ONone.
Proof.
  rewrite (query_one_miss_files_entry afk_status [] (PInt 7) (PStr "user_id")
             ∅ (mkWorld afk_store []) [row_7_meeting; row_8_lunch]).
  - vm_compute. reflexivity.
  - apply lookup_empty.
  - vm_compute. reflexivity.
Defined.

(** *** [invalidate_entry] *)

(** [invalidate_entry] never raises and never touches the store; for a
    key that is not in the cache it changes nothing, and two calls in a row
    do what one does. *)
Theorem invalidate_entry_idempotent (kwargs : list (string * pyval))
    (c : gmap pyval pyobj) (w : world) :
  (invalidate_entry kwargs (c, w)).1 = Ok tt
  /\ (invalidate_entry kwargs (c, w)).2.2 = w
  /\ (c !! _hash_dict kwargs = None ->
      invalidate_entry kwargs (c, w) = (Ok tt, (c, w)))
  /\ (invalidate_entry kwargs ;;; invalidate_entry kwargs) (c, w)
     = invalidate_entry kwargs (c, w).
Proof.
  rewrite !invalidate_entry_run. repeat split.
  - intros H. now rewrite delete_id.
  - unfold bind. rewrite !invalidate_entry_run.
    now rewrite delete_delete_eq.
Qed.

Lemma query_one_after_invalidate_witness :
  ((invalidate_entry [("a", PInt 1)] ;;;
    query_one afk_status [PTuple [PStr "a"; PInt 1]]
      (PStr "reason") (PStr "reason"))
     ({[PTuple [PTuple [PStr "a"; PInt 1]] := ONone]},
      mkWorld afk_store [])).1
  = Ok (ORecord row_7_meeting).
Proof.
  rewrite (query_one_after_invalidate afk_status [("a", PInt 1)]
             [PTuple [PStr "a"; PInt 1]] (PStr "reason") (PStr "reason")
             {[PTuple [PTuple [PStr "a"; PInt 1]] := ONone]}
             (mkWorld afk_store [])
             (mkWorld afk_store
                [EvFetch "SELECT * FROM afk_status WHERE $1 = $2"
                   [PStr "reason"; PStr "reason"]])
             [row_7_meeting; row_8_lunch]).
  - reflexivity.
  - vm_compute. reflexivity.
  - vm_compute. reflexivity.
Defined.

(** *** [_hash_dict] and the order of the keyword arguments *)

(** [_hash_dict] gives the same key to two [dict]s that are equal as
    maps, whatever the order their entries were put in; so
    [invalidate_entry] does the same to the cache for both. *)
Theorem hash_dict_order_independent (d1 d2 : list (string * pyval)) :
  NoDup d1.*1 -> NoDup d2.*1 ->
  (forall k, dict_get d1 k = dict_get d2 k) ->
  _hash_dict d1 = _hash_dict d2
  /\ (forall cs, invalidate_entry d1 cs = invalidate_entry d2 cs).
Proof.
  intros N1 N2 H.
  pose proof (hash_dict_same_dict d1 d2 N1 N2 H) as Hk.
  split; [exact Hk|].
  intros [c w]. now rewrite !invalidate_entry_run, Hk.
Qed.

Lemma hash_dict_order_independent_witness :
  _hash_dict [("obj_id", PInt 7); ("column_name", PStr "user_id")]
  = _hash_dict [("column_name", PStr "user_id"); ("obj_id", PInt 7)].
Proof.
  refine (proj1 (hash_dict_order_independent
                   [("obj_id", PInt 7); ("column_name", PStr "user_id")]
                   [("column_name", PStr "user_id"); ("obj_id", PInt 7)]
                   _ _ _)).
  - apply (bool_decide_unpack _). vm_compute. exact I.
  - apply (bool_decide_unpack _). vm_compute. exact I.
  - intros k. simpl. repeat case_bool_decide; congruence.
Defined.

(** *** [_hash_dict] tells parameter sets apart *)

Lemma hash_dict_sorted (d : list (string * pyval)) :
  _hash_dict d
  = PTuple ((fun k => PTuple [PStr k; default PNone (dict_get d k)])
              <$> sorted d.*1).
Proof.
  unfold _hash_dict. f_equal.
  assert (Hin : forall k, k ∈ sorted d.*1 -> is_Some (dict_get d k)).
  { intros k Hk. apply dict_get_elem. now rewrite <- sorted_Permutation. }
  induction (sorted d.*1) as [|k l IH]; [reflexivity|].
  destruct (Hin k) as [v Hv]; [left|].
  rewrite omap_cons, fmap_cons, Hv. simpl. f_equal. apply IH.
  intros k' Hk'. apply Hin. now right.
Qed.

Lemma hash_items_inj (d1 d2 : list (string * pyval)) (l1 l2 : list string) :
  (fun k => PTuple [PStr k; default PNone (dict_get d1 k)]) <$> l1
  = (fun k => PTuple [PStr k; default PNone (dict_get d2 k)]) <$> l2 ->
  l1 = l2
  /\ forall k, k ∈ l1 ->
       default PNone (dict_get d1 k) = default PNone (dict_get d2 k).
Proof.
  revert l2. induction l1 as [|k l1 IH]; intros [|k' l2] H;
    try discriminate.
  - split; [reflexivity|]. intros k Hk. inversion Hk.
  - rewrite !fmap_cons in H. injection H as Hk Hv Hl.
    subst k'. destruct (IH l2 Hl) as [-> Hrest].
    split; [reflexivity|]. intros k0 Hk0.
    apply elem_of_cons in Hk0 as [->|Hk0]; [exact Hv | now apply Hrest].
Qed.

(** Two sets of keyword parameters with the same key are the same map:
    [_hash_dict] never files two different parameter sets under one
    key. *)
Theorem hash_dict_injective (d1 d2 : list (string * pyval)) :
  _hash_dict d1 = _hash_dict d2 ->
  forall k, dict_get d1 k = dict_get d2 k.
Proof.
  rewrite !hash_dict_sorted. intros H. injection H as H.
  apply hash_items_inj in H as [Hs Hv]. intros k.
  destruct (decide (k ∈ d1.*1)) as [Hk|Hk].
  - assert (Hk2 : k ∈ d2.*1).
    { rewrite <- (sorted_Permutation d2.*1), <- Hs, sorted_Permutation.
      exact Hk. }
    pose proof (Hv k) as E. rewrite sorted_Permutation in E.
    specialize (E Hk).
    apply dict_get_elem in Hk as [v1 E1]. apply dict_get_elem in Hk2 as [v2 E2].
    rewrite E1, E2 in *. simpl in E. now subst.
  - assert (Hk2 : k ∉ d2.*1).
    { rewrite <- (sorted_Permutation d2.*1), <- Hs, sorted_Permutation.
      exact Hk. }
    rewrite dict_get_elem in Hk, Hk2.
    destruct (dict_get d1 k); [exfalso; eauto|].
    destruct (dict_get d2 k); [exfalso; eauto|]. reflexivity.
Qed.

Lemma hash_dict_injective_witness :
  dict_get [("a", PInt 1); ("b", PInt 2)] "b"
  = dict_get [("b", PInt 2); ("a", PInt 1)] "b".
Proof.
  apply (hash_dict_injective [("a", PInt 1); ("b", PInt 2)]
           [("b", PInt 2); ("a", PInt 1)]).
  vm_compute. reflexivity.
Defined.

(** *** [db_migrate]: which steps run, and when the run stops *)

Lemma steps_of_app (l1 l2 : list event) :
  steps_of (l1 ++ l2) = (steps_of l1 ++ steps_of l2)%list.
Proof. apply List.filter_app. Qed.

(** A loop over step numbers that are all defined, with steps that end
    well and call no step themselves, calls one step per number, in the
    order of the numbers. *)
Lemma for_each_call_version (cls : table_class) (l : list Z) :
  (forall i step, __versions__ cls !! i = Some step ->
     forall w, exists w', step w = (Ok tt, w')
                          /\ steps_of (log w') = steps_of (log w)) ->
  (forall i, i ∈ l -> is_Some (__versions__ cls !! i)) ->
  forall w, exists w',
    for_each l (call_version cls) w = (Ok tt, w')
    /\ steps_of (log w')
       = (steps_of (log w) ++ map (EvStep (__tablename__ cls)) l)%list.
Proof.
  intros Hq. induction l as [|i l IH]; intros Hd w.
  - exists w. split; [reflexivity|]. now rewrite app_nil_r.
  - destruct (Hd i) as [step Hs]; [left|].
    destruct (Hq i step Hs
                (mkWorld (db w) (log w ++ [EvStep (__tablename__ cls) i])))
      as (w1 & E1 & S1).
    destruct (IH (fun j Hj => Hd j (list_elem_of_further _ _ _ Hj)) w1)
      as (w2 & E2 & S2).
    exists w2. split.
    + cbn [for_each]. unfold bind, call_version. rewrite Hs.
      unfold bind, emit. rewrite E1. exact E2.
    + rewrite S2, S1. cbn [log]. rewrite steps_of_app. cbn.
      now rewrite <- app_assoc.
Qed.

(** For a table at stored version [v] below the number [n] of steps,
    when the steps end well and the numbers asked for are defined,
    [db_migrate] calls the steps numbered [v + 1] to [n - 3], each once
    and in increasing order, and no other. *)
Theorem migrate_class_runs_range (cls : table_class) (w : world)
    (vs : gmap string Z) (v : Z) :
  table_exists (__tablename__ cls) (db w) = true ->
  versions (db w) = Some vs ->
  vs !! __tablename__ cls = Some v ->
  v < Z.of_nat (size (__versions__ cls)) ->
  (forall i step, __versions__ cls !! i = Some step ->
     forall w0, exists w', step w0 = (Ok tt, w')
                           /\ steps_of (log w') = steps_of (log w0)) ->
  (forall i, v + 1 <= i < Z.of_nat (size (__versions__ cls)) - 2 ->
     is_Some (__versions__ cls !! i)) ->
  exists w',
    migrate_class cls w = (Ok tt, w')
    /\ steps_of (log w')
       = (steps_of (log w)
            ++ map (EvStep (__tablename__ cls))
                 (py_range (v + 1)
                    (Z.of_nat (size (__versions__ cls)) - 2)))%list.
Proof.
  intros He Hv Hl Hlt Hq Hd.
  rewrite (migrate_class_versioned cls w vs v He Hv Hl).
  rewrite bool_decide_eq_true_2 by exact Hlt.
  destruct (for_each_call_version cls
              (py_range (v + 1) (Z.of_nat (size (__versions__ cls)) - 2))
              Hq (fun i Hi => Hd i (proj1 (py_range_elem _ _ i) Hi))
              (mkWorld (db w)
                 (log w ++ [EvFetch exists_query [PStr (__tablename__ cls)];
                            EvFetch version_query [PStr (__tablename__ cls)]])))
    as (w' & E & S).
  exists w'. split; [exact E|].
  rewrite S. cbn [log]. rewrite steps_of_app. cbn. now rewrite app_nil_r.
Qed.

Lemma five_steps_lookup (i : Z) (step : M world unit) :
  five_steps !! i = Some step -> step = ret tt.
Proof.
  unfold five_steps. simpl. intros H.
  repeat (rewrite lookup_insert in H; case_decide; [congruence|]).
  rewrite lookup_empty in H. discriminate.
Qed.

Lemma migrate_class_runs_range_witness :
  exists w',
    migrate_class afk_status_v5 (mkWorld afk_store_v0 []) = (Ok tt, w')
    /\ steps_of (log w') = [EvStep "afk_status" 1; EvStep "afk_status" 2].
Proof.
  refine (migrate_class_runs_range afk_status_v5 (mkWorld afk_store_v0 [])
            {["afk_status" := 0]} 0 _ _ _ _ _ _).
  - vm_compute. reflexivity.
  - reflexivity.
  - vm_compute. reflexivity.
  - vm_compute. reflexivity.
  - intros i step H w0. apply five_steps_lookup in H as ->.
    exists w0. split; reflexivity.
  - intros i Hi. change (size (__versions__ afk_status_v5)) with 5%nat in Hi.
    assert (Hc : i = 1 \/ i = 2) by lia.
    destruct Hc as [->| ->]; vm_compute; eauto.
Defined.

(** For a table at a stored version of at least [n - 3], where [n] is the
    number of steps, also one beyond [n], [db_migrate] calls no step,
    raises nothing and leaves the store as it is. *)
Theorem migrate_class_no_step (cls : table_class) (w : world)
    (vs : gmap string Z) (v : Z) :
  table_exists (__tablename__ cls) (db w) = true ->
  versions (db w) = Some vs ->
  vs !! __tablename__ cls = Some v ->
  Z.of_nat (size (__versions__ cls)) - 3 <= v ->
  migrate_class cls w
  = (Ok tt,
     mkWorld (db w)
       (log w ++ [EvFetch exists_query [PStr (__tablename__ cls)];
                  EvFetch version_query [PStr (__tablename__ cls)]])).
Proof.
  intros He Hv Hl Hge.
  rewrite (migrate_class_versioned cls w vs v He Hv Hl).
  case_bool_decide; [|reflexivity].
  now rewrite py_range_empty by lia.
Qed.

Lemma migrate_class_no_step_witness :
  migrate_class afk_status_v5 (mkWorld afk_store_v2 [])
  = (Ok tt,
     mkWorld afk_store_v2
       [EvFetch exists_query [PStr "afk_status"];
        EvFetch version_query [PStr "afk_status"]]).
Proof.
  refine (migrate_class_no_step afk_status_v5 (mkWorld afk_store_v2 [])
            {["afk_status" := 2]} 2 _ _ _ _); vm_compute; try reflexivity.
  discriminate.
Defined.

(** A class that keeps the [initial_create] of [DatabaseTable] and whose
    table is not in the store ends the whole run: [db_migrate] raises
    [NotImplementedError] and the classes after it are not looked at. *)
Theorem db_migrate_stops_at_unimplemented (cls : table_class)
    (rest : list table_class) (s : store) :
  table_exists (__tablename__ cls) (create_versions s) = false ->
  initial_create cls = DatabaseTable_initial_create ->
  db_migrate (cls :: rest) (mkWorld s [])
  = (Raise (NotImplementedError "Database schema not implemented!"),
     mkWorld (create_versions s)
       [EvExecute versions_ddl [];
        EvFetch exists_query [PStr (__tablename__ cls)];
        EvInitialCreate (__tablename__ cls)]).
Proof.
  intros He Hi. unfold db_migrate. run.
  rewrite (migrate_class_absent cls
             (mkWorld (create_versions s) [EvExecute versions_ddl []]) He), Hi.
  reflexivity.
Qed.

Lemma db_migrate_stops_at_unimplemented_witness :
  (db_migrate [afk_status; afk_status_created] (mkWorld fresh_store [])).1
  = Raise (NotImplementedError "Database schema not implemented!").
Proof.
  rewrite (db_migrate_stops_at_unimplemented afk_status [afk_status_created]
             fresh_store); reflexivity.
Defined.

(** A table that is in the store without a row in [versions], for a class
    that keeps the [initial_migrate] of [DatabaseTable]: [db_migrate]
    leaves the store as it is and writes no version, so every later run
    finds the table in the same state. *)
Theorem db_migrate_unversioned_unchanged (cls : table_class) (s : store)
    (vs : gmap string Z) :
  table_exists (__tablename__ cls) s = true ->
  versions s = Some vs ->
  vs !! __tablename__ cls = None ->
  initial_migrate cls = DatabaseTable_initial_migrate ->
  db_migrate [cls] (mkWorld s [])
  = (Ok tt,
     mkWorld s
       [EvExecute versions_ddl [];
        EvFetch exists_query [PStr (__tablename__ cls)];
        EvFetch version_query [PStr (__tablename__ cls)];
        EvInitialMigrate (__tablename__ cls)]).
Proof.
  intros He Hv Hn Hi.
  assert (Hs : create_versions s = s).
  { unfold create_versions. now rewrite Hv. }
  unfold db_migrate. run. rewrite Hs.
  rewrite (migrate_class_unversioned cls
             (mkWorld s [EvExecute versions_ddl []]) vs He Hv Hn), Hi.
  reflexivity.
Qed.

Lemma db_migrate_unversioned_unchanged_witness :
  db (db_migrate [afk_status] (mkWorld afk_store [])).2 = afk_store.
Proof.
  rewrite (db_migrate_unversioned_unchanged afk_status afk_store ∅);
    vm_compute; reflexivity.
Defined.

(** *** [set_initial_version] *)

(** For a table name that has no row in [versions],
    [set_initial_version] writes version 0, which a lookup then finds, and
    touches no table; a second call for the same name is refused by the
    primary key and leaves the store as the first call left it. *)
Theorem set_initial_version_once (name : string) (w : world)
    (vs : gmap string Z) :
  versions (db w) = Some vs ->
  vs !! name = None ->
  let stmt :=
    EvExecute "INSERT INTO versions (table_name, version_num) VALUES ($1,$2)"
      [PStr name; PInt 0] in
  let w1 :=
    mkWorld (mkStore (tables (db w)) (Some (<[name := 0]> vs)))
            (log w ++ [stmt]) in
  set_initial_version (Some name) w = (Ok tt, w1)
  /\ select_version name (db w1) = Ok (Some 0)
  /\ set_initial_version (Some name) w1
     = (Raise (PostgresError "duplicate key"),
        mkWorld (db w1) (log w1 ++ [stmt])).
Proof.
  intros Hv Hn. cbv zeta. repeat split.
  - unfold set_initial_version, insert_version. run. now rewrite Hv, Hn.
  - unfold select_version. simpl. now rewrite lookup_insert_eq.
  - unfold set_initial_version, insert_version. run.
    now rewrite lookup_insert_eq.
Qed.

Lemma set_initial_version_once_witness :
  select_version "afk_status"
    (db (set_initial_version (Some "afk_status") (mkWorld afk_store [])).2)
  = Ok (Some 0).
Proof.
  destruct (set_initial_version_once "afk_status" (mkWorld afk_store []) ∅
              eq_refl (lookup_empty _)) as (E & S & _).
  rewrite E. exact S.
Defined.

(** *** [__repr__] *)

Lemma str_join_items (d : list (string * pyval)) :
  d <> [] -> str_join ", " (items d) = Raise TypeError.
Proof. destruct d as [|kv d]; [congruence|]. reflexivity. Qed.

(** [__repr__] raises [TypeError] for every object that has an attribute,
    whatever the values print as: it joins the (name, value) tuples, which
    are not strings.  Only an object without attributes gets a text. *)
Theorem repr_raises (format_value : pyval -> string) (self : table_object) :
  (__dict__ self <> [] -> __repr__ format_value self = Raise TypeError)
  /\ (__dict__ self = [] ->
      __repr__ format_value self
      = Ok (__tablename__ (class_of self) +:+ ": < >")).
Proof.
  unfold __repr__. split; intros H.
  - destruct (fold_left (repr_step format_value) (__dict__ self) ("", true)).
    now rewrite str_join_items.
  - rewrite H. reflexivity.
Qed.

Lemma repr_raises_witness :
  __repr__ (fun _ => "") (mkObject afk_status [("user_id", PInt 7)])
  = Raise TypeError.
Proof.
  apply (proj1 (repr_raises (fun _ => "")
                  (mkObject afk_status [("user_id", PInt 7)]))).
  discriminate.
Defined.

(** *** One key space for both kinds of query *)

(** [query_one] and [query_all] file their results under the same key,
    the positional arguments alone.  A [query_all] that follows a
    [query_one] with the same positional arguments is answered from the
    entry [query_one] left, a single record or [None] and not a list, and
    the store is asked once. *)
Theorem query_all_after_query_one (table : table_class)
    (args : list pyval) (obj_id column_name : pyval)
    (c : gmap pyval pyobj) (w : world) (rows : list row) :
  c !! PTuple args = None ->
  tables (db w) !! __tablename__ table = Some rows ->
  (query_one table args obj_id column_name ;;; query_all table args) (c, w)
  = (Ok (single (if sql_eq column_name obj_id then rows else [])),
     (<[PTuple args := single (if sql_eq column_name obj_id then rows else [])]> c,
      mkWorld (db w)
        (log w ++ [EvFetch ("SELECT * FROM " +:+ __tablename__ table
                              +:+ " WHERE $1 = $2") [column_name; obj_id]]))).
Proof.
  intros H Ht. unfold bind.
  rewrite (query_one_miss_run table args obj_id column_name c w _ _ H
             (get_by_attribute_run table obj_id column_name w rows Ht)).
  apply query_all_hit_run
    with (v := single (if sql_eq column_name obj_id then rows else [])).
  apply lookup_insert_eq.
Qed.

Lemma query_all_after_query_one_witness :
  ((query_one afk_status [] (PStr "reason") (PStr "reason") ;;;
    query_all afk_status []) (∅, mkWorld afk_store [])).1
  = Ok (ORecord row_7_meeting).
Proof.
  rewrite (query_all_after_query_one afk_status [] (PStr "reason")
             (PStr "reason") ∅ (mkWorld afk_store [])
             [row_7_meeting; row_8_lunch]); [reflexivity| |].
  - apply lookup_empty.
  - vm_compute. reflexivity.
Defined.

Lemma invalidate_entry_idempotent_witness :
  invalidate_entry [("a", PInt 1)] (∅, mkWorld afk_store [])
  = (Ok tt, (∅, mkWorld afk_store [])).
Proof.
  apply (proj1 (proj2 (proj2 (invalidate_entry_idempotent [("a", PInt 1)] ∅
                                (mkWorld afk_store []))))).
  apply lookup_empty.
Defined.

Lemma db_migrate_absent_witness :
  db_migrate [afk_status_created] (mkWorld fresh_store [])
  = (Ok tt,
     mkWorld (mkStore {["afk_status" := []]} (Some ∅))
       [EvExecute versions_ddl [];
        EvFetch exists_query [PStr "afk_status"];
        EvInitialCreate "afk_status"]).
Proof.
  rewrite (db_migrate_absent afk_status_created fresh_store);
    vm_compute; reflexivity.
Defined.

End DbExtra.

(** ** Further properties of [dozer/bot.py] *)

Module BotExtra.
Import Bot.

(** *** [on_command_error] *)

(** No error class is an instance of two of the classes the handler tests
    for, so the order of its branches decides nothing; the handler sends
    one message or none, and none exactly for [InvalidContext], for
    [CommandNotFound] and for a [NotOwner] that has no argument. *)
Theorem on_command_error_one_branch (ctx : context) (err : error) :
  (length (List.filter (isinstance (err_class err))
             [NoPrivateMessage; UserInputError; NotOwner; MissingPermissions;
              BotMissingPermissions; CommandOnCooldown; CommandNotFound;
              InvalidContext]) <= 1)%nat
  /\ (length (on_command_error ctx err) <= 1)%nat
  /\ (on_command_error ctx err = [] <->
      err_class err = InvalidContext \/ err_class err = CommandNotFound
      \/ (err_class err = NotOwner /\ err_args err = [])).
Proof.
  split; [destruct (err_class err); vm_compute; lia|].
  split.
  - unfold on_command_error.
    destruct (err_class err), (err_args err); vm_compute; lia.
  - split; [apply BotFacts.on_command_error_silent_only|].
    unfold on_command_error.
    intros [H|[H|[H Ha]]]; rewrite H; [reflexivity..|].
    rewrite Ha. reflexivity.
Qed.

Lemma on_command_error_one_branch_witness :
  on_command_error (mkContext false "<@1>" (Some "afk") (Some "afk"))
    (mkError NotOwner [] [])
  = [].
Proof.
  apply (proj2 (proj2 (on_command_error_one_branch
                         (mkContext false "<@1>" (Some "afk") (Some "afk"))
                         (mkError NotOwner [] [])))).
  right. right. split; reflexivity.
Defined.

(** An error of a subclass of [UserInputError] gets the answer of
    [UserInputError]; an error that is none of the classes the handler
    names, such as a plain [CheckFailure] or a [CommandInvokeError], gets
    the traceback. *)
Theorem on_command_error_classes (ctx : context) (err : error) :
  (isinstance (err_class err) UserInputError = true ->
   on_command_error ctx err = [ReplyUserInput (author_mention ctx) err])
  /\ (on_command_error ctx err = [ReplyTraceback err] <->
      err_class err = CommandError \/ err_class err = CheckFailure
      \/ err_class err = CommandInvokeError
      \/ err_class err = DisabledCommand).
Proof.
  unfold on_command_error.
  destruct (err_class err), (err_args err); vm_compute; repeat split;
    intros; try discriminate; auto;
    repeat match goal with H : _ \/ _ |- _ => destruct H end;
    discriminate.
Qed.

Lemma on_command_error_classes_witness :
  on_command_error (mkContext false "<@1>" (Some "afk") (Some "afk"))
    (mkError BadArgument ["bad"] [])
  = [ReplyUserInput "<@1>" (mkError BadArgument ["bad"] [])].
Proof.
  apply (proj1 (on_command_error_classes
                  (mkContext false "<@1>" (Some "afk") (Some "afk"))
                  (mkError BadArgument ["bad"] []))).
  reflexivity.
Defined.

(** *** What the global check raises, and what the handler does with it *)

Section GlobalCheckSilent.

Variable cooldown : Type.
Variable retry : Type.
Variable update_rate_limit : cooldown -> option retry * cooldown.
Variable truthy : retry -> bool.

(** [global_checks] never hands back a false value: it hands back [True]
    or raises.  Whatever it raises, for a bot author or for the rate
    limit, [on_command_error] sends nothing for it.  For an author who is
    not a bot it updates the cooldown once and passes exactly when the
    cooldown gives no time to wait. *)
Theorem global_check_failures_silent (ctx : context) (cd : cooldown) :
  (global_checks cooldown retry update_rate_limit truthy ctx cd).1
    <> inl false
  /\ (forall err ctx',
        (global_checks cooldown retry update_rate_limit truthy ctx cd).1
          = inr err ->
        on_command_error ctx' err = [])
  /\ (author_bot ctx = false ->
      (global_checks cooldown retry update_rate_limit truthy ctx cd).2
        = (update_rate_limit cd).2
      /\ ((global_checks cooldown retry update_rate_limit truthy ctx cd).1
            = inl true
          <-> from_option truthy false (update_rate_limit cd).1 = false)).
Proof.
  unfold global_checks.
  destruct (author_bot ctx); destruct (update_rate_limit cd) as [r cd'];
    cbn [fst snd]; destruct (from_option truthy false r); cbn [fst snd];
    repeat split; try discriminate; try reflexivity;
    try (intros err ctx' H; injection H as <-; reflexivity).
Qed.

End GlobalCheckSilent.

Lemma global_check_failures_silent_witness :
  on_command_error (mkContext false "<@1>" (Some "afk") (Some "afk"))
    (mkError InvalidContext ["Global rate-limit exceeded!"] [])
  = [].
Proof.
  apply (proj1 (proj2 (global_check_failures_silent nat unit
                         (fun n => (Some tt, S n)) (fun _ => true)
                         (mkContext false "<@1>" (Some "afk") (Some "afk"))
                         0%nat))).
  reflexivity.
Defined.

(** *** [format_error] *)

Lemma upper_not_lower (c : ascii) : is_upper c = true -> is_lower c = false.
Proof.
  unfold is_upper, is_lower. intros H.
  apply andb_true_iff in H as [_ H]. apply Nat.leb_le in H.
  apply andb_false_iff. left. apply Nat.leb_gt. lia.
Qed.

Lemma lower_not_upper (c : ascii) : is_lower c = true -> is_upper c = false.
Proof.
  intros H. destruct (is_upper c) eqn:E; [|reflexivity].
  apply upper_not_lower in E. congruence.
Qed.

Lemma lower_prefix_app (run rest : string) :
  all_lower run = true ->
  lower_prefix (run +:+ rest) = run +:+ lower_prefix rest.
Proof.
  induction run as [|c run IH]; intros H; [reflexivity|].
  cbn [all_lower] in H. apply andb_true_iff in H as [Hc Hr].
  change (lower_prefix (String c run +:+ rest))
    with (if is_lower c then String c (lower_prefix (run +:+ rest)) else "").
  now rewrite Hc, IH.
Qed.

Lemma findall_skip_lower (run rest : string) :
  all_lower run = true ->
  findall_words (run +:+ rest) = findall_words rest.
Proof.
  induction run as [|c run IH]; intros H; [reflexivity|].
  cbn [all_lower] in H. apply andb_true_iff in H as [Hc Hr].
  change (findall_words (String c run +:+ rest))
    with (match lower_prefix (run +:+ rest) with
          | EmptyString => findall_words (run +:+ rest)
          | String _ _ as r =>
              if is_upper c then String c r :: findall_words (run +:+ rest)
              else findall_words (run +:+ rest)
          end).
  rewrite (lower_not_upper c Hc), IH by exact Hr.
  now destruct (lower_prefix (run +:+ rest)).
Qed.

Lemma append_empty_r (s : string) : s +:+ "" = s.
Proof.
  induction s as [|c s IH]; [reflexivity|].
  change (String c (s +:+ "") = String c s). now rewrite IH.
Qed.

Lemma lower_prefix_words (ws : list string) :
  Forall (fun w => capitalized w = true) ws ->
  lower_prefix (concat_words ws) = "".
Proof.
  intros H. destruct H as [|w ws Hw _]; [reflexivity|].
  destruct w as [|u [|l ls]]; try discriminate.
  cbn [capitalized] in Hw. apply andb_true_iff in Hw as [Hu _].
  change (lower_prefix (concat_words (String u (String l ls) :: ws)))
    with (if is_lower u
          then String u (lower_prefix (String l ls +:+ concat_words ws))
          else "").
  now rewrite (upper_not_lower u Hu).
Qed.

Lemma findall_concat_words (ws : list string) :
  Forall (fun w => capitalized w = true) ws ->
  findall_words (concat_words ws) = ws.
Proof.
  induction 1 as [|w ws Hw Hws IH]; [reflexivity|].
  destruct w as [|u [|l ls]]; try discriminate.
  cbn [capitalized] in Hw. apply andb_true_iff in Hw as [Hu Hrun].
  change (concat_words (String u (String l ls) :: ws))
    with (String u (String l ls +:+ concat_words ws)).
  change (findall_words (String u (String l ls +:+ concat_words ws)))
    with (match lower_prefix (String l ls +:+ concat_words ws) with
          | EmptyString => findall_words (String l ls +:+ concat_words ws)
          | String _ _ as r =>
              if is_upper u
              then String u r :: findall_words (String l ls +:+ concat_words ws)
              else findall_words (String l ls +:+ concat_words ws)
          end).
  rewrite (lower_prefix_app (String l ls) (concat_words ws) Hrun).
  rewrite (lower_prefix_words ws Hws), append_empty_r, Hu.
  now rewrite (findall_skip_lower (String l ls) (concat_words ws) Hrun), IH.
Qed.

Section FormatErrorFacts.

Variable clean : context -> string -> string.

(** For an error whose class name is made of capitalized words, as the
    names of the framework's errors are, [format_error] gives the words in
    lower case with single spaces between them, followed, when the error
    has arguments, by a colon and the cleaned first argument. *)
Theorem format_error_words (ctx : context) (ws : list string) :
  Forall (fun w => capitalized w = true) ws ->
  format_error clean ctx (concat_words ws) []
  = Py.join " " (map str_lower ws)
  /\ forall arg0 rest,
       format_error clean ctx (concat_words ws) (arg0 :: rest)
       = Py.join " " (map str_lower ws) +:+ ": " +:+ clean ctx arg0.
Proof.
  intros H. unfold format_error. rewrite (findall_concat_words ws H).
  split; [reflexivity|]. intros; reflexivity.
Qed.

End FormatErrorFacts.

Lemma format_error_words_witness :
  format_error (fun _ s => s)
    (mkContext false "<@1>" (Some "afk") (Some "afk"))
    "MissingRequiredArgument" []
  = "missing required argument".
Proof.
  refine (proj1 (format_error_words (fun _ s => s)
                   (mkContext false "<@1>" (Some "afk") (Some "afk"))
                   ["Missing"; "Required"; "Argument"] _)).
  repeat constructor.
Defined.

End BotExtra.
